(** * ToolOrchestrator: a shallow embedding of
    [packages/core/src/server/tools/ToolOrchestrator.ts]

    The orchestrator object is a record of its four private fields; each
    method is a computation in a small state/error/writer monad whose
    written output is the ordered list of calls the method makes on its
    collaborators (the streaming event service, the scheduler, the
    registered completion callback and the console).  The scheduler's
    callbacks ([handleToolCallsUpdate], [handleOutputUpdate],
    [handleAllToolCallsComplete]) are methods like the others; the
    scheduler invokes them whenever it pleases, so a run of the
    orchestrator is an arbitrary list of method invocations. *)

From stdpp Require Import gmap strings list.

Open Scope string_scope.
Open Scope list_scope.

(** ** Values handed around by reference *)

(** An [express.Response], an [AbortSignal], a completion callback and an
    [onConfirm] continuation are only ever stored, compared for presence
    and passed on: each is modelled by the identity of the object. *)
Definition Response := nat.
Definition AbortSignal := nat.
Definition CompletionCallback := nat.
Definition OnConfirm := nat.

(** The values of [request.args] ([Record<string, unknown>]); the
    orchestrator only asks whether [args.command] is a string. *)
Inductive JsValue :=
| JsString (s : string)
| JsNumber (z : Z)
| JsBool (b : bool)
| JsNull
| JsObject (ref : nat).

(** [ToolCallRequestInfo] (core/turn.ts): the three fields the
    orchestrator reads. *)
Record ToolCallRequestInfo := {
  callId : string;
  name : string;
  args : option (gmap string JsValue)
}.

(** Modelled from the spec: the [status] union of [ToolCall], declared in
    core/coreToolScheduler.ts (absent); the six states of the state
    machine of section 4.1. *)
Inductive Status :=
| validating
| awaiting_approval
| executing
| success
| error
| cancelled.

Global Instance Status_eq_dec : EqDecision Status.
Proof. solve_decision. Defined.

(** Modelled from the spec: [confirmationDetails] of a waiting call, a
    description and the accept continuation (section 3). *)
Record ConfirmationDetails := {
  description : string;
  onConfirm : OnConfirm
}.

(** Modelled from the spec: the [ToolCall] object of
    core/coreToolScheduler.ts (absent), with the attributes of section 3.
    It is one mutable JS object; [status] is assigned in place by
    [cancelAllOperations]. *)
Record ToolCall := {
  request : ToolCallRequestInfo;
  status : Status;
  confirmationDetails : option ConfirmationDetails;
  result : option string;
  outputChunks : list string
}.

(** [toolCall.status = 'cancelled'] *)
Definition set_status (st : Status) (tc : ToolCall) : ToolCall :=
  {| request := request tc;
     status := st;
     confirmationDetails := confirmationDetails tc;
     result := result tc;
     outputChunks := outputChunks tc |}.

(** The part of [CoreToolScheduler] the orchestrator reaches into:
    [(this.toolScheduler as any).toolCalls]. *)
Record CoreToolScheduler := {
  toolCalls : list ToolCall
}.

(** The private fields of [class ToolOrchestrator]. *)
Record ToolOrchestrator := {
  toolScheduler : option CoreToolScheduler;
  currentResponse : option Response;
  toolCompletionCallback : option CompletionCallback;
  sentConfirmationEvents : gset string
}.

(** The object right after [new ToolOrchestrator(streamingEventService)]. *)
Definition new_ToolOrchestrator : ToolOrchestrator :=
  {| toolScheduler := None;
     currentResponse := None;
     toolCompletionCallback := None;
     sentConfirmationEvents := ∅ |}.

(** ** Calls made on collaborators *)

Inductive LogArg :=
| LogStr (s : string)
| LogNum (n : nat).

Inductive Effect :=
| sendToolCallEvent (res : Response) (id nm : string)
    (a : option (gmap string JsValue))
| sendToolConfirmationEvent (res : Response) (id nm : string)
    (command : option string) (a : option (gmap string JsValue))
| sendToolExecutionEvent (res : Response) (id st message : string)
| sendToolResultEvent (res : Response) (toolCall : ToolCall)
| schedule (requests : list ToolCallRequestInfo) (signal : AbortSignal)
| handleConfirmationResponse (id : string) (k : OnConfirm)
    (outcome : string) (signal : AbortSignal)
| invokeCompletionCallback (cb : CompletionCallback)
    (completedCalls : list ToolCall)
| consoleLog (line : list LogArg).

(** The exceptions a method can end with: the three [throw new Error]
    sites, and the [TypeError] of reading [onConfirm] off an undefined
    [confirmationDetails]. *)
Inductive OrchestratorError :=
| SchedulerNotInitialized
| InvalidOutcome (outcome : string) (validOutcomes : list string)
| NotFoundOrNotAwaiting
| TypeError_confirmationDetails.

Fixpoint join (sep : string) (l : list string) : string :=
  match l with
  | [] => ""
  | [x] => x
  | x :: l' => x +:+ sep +:+ join sep l'
  end.

(** [error.message] *)
Definition message (e : OrchestratorError) : string :=
  match e with
  | SchedulerNotInitialized => "Tool scheduler not initialized"
  | InvalidOutcome outcome validOutcomes =>
      "Invalid outcome value: " +:+ outcome +:+ ". Must be one of: "
        +:+ join ", " validOutcomes
  | NotFoundOrNotAwaiting => "Tool call not found or not awaiting approval"
  | TypeError_confirmationDetails =>
      "Cannot read properties of undefined (reading 'onConfirm')"
  end.

(** ** The method monad *)

Definition M (A : Type) : Type :=
  ToolOrchestrator → (OrchestratorError + A) * ToolOrchestrator * list Effect.

Definition outcome_of {A} (r : (OrchestratorError + A) * ToolOrchestrator * list Effect)
  : OrchestratorError + A := r.1.1.
Definition state_of {A} (r : (OrchestratorError + A) * ToolOrchestrator * list Effect)
  : ToolOrchestrator := r.1.2.
Definition effects_of {A} (r : (OrchestratorError + A) * ToolOrchestrator * list Effect)
  : list Effect := r.2.

Global Instance M_ret : MRet M := λ A x this, (inr x, this, []).

Global Instance M_bind : MBind M := λ A B k m this,
  match m this with
  | (inl e, this', out) => (inl e, this', out)
  | (inr x, this', out) =>
      match k x this' with
      | (r, this'', out') => (r, this'', out ++ out')
      end
  end.

Definition throw {A} (e : OrchestratorError) : M A :=
  λ this, (inl e, this, []).
Definition read {A} (field : ToolOrchestrator → A) : M A :=
  λ this, (inr (field this), this, []).
Definition write (f : ToolOrchestrator → ToolOrchestrator) : M unit :=
  λ this, (inr (), f this, []).
Definition call (e : Effect) : M unit :=
  λ this, (inr (), this, [e]).

(** [for (const x of l) { body }] *)
Fixpoint forEach {A} (l : list A) (body : A → M unit) : M unit :=
  match l with
  | [] => mret ()
  | x :: l' => body x ;; forEach l' body
  end.

(** Field assignments. *)
Definition set_toolScheduler (v : option CoreToolScheduler)
    (this : ToolOrchestrator) : ToolOrchestrator :=
  {| toolScheduler := v;
     currentResponse := currentResponse this;
     toolCompletionCallback := toolCompletionCallback this;
     sentConfirmationEvents := sentConfirmationEvents this |}.
Definition set_currentResponse (v : option Response)
    (this : ToolOrchestrator) : ToolOrchestrator :=
  {| toolScheduler := toolScheduler this;
     currentResponse := v;
     toolCompletionCallback := toolCompletionCallback this;
     sentConfirmationEvents := sentConfirmationEvents this |}.
Definition set_toolCompletionCallback (v : option CompletionCallback)
    (this : ToolOrchestrator) : ToolOrchestrator :=
  {| toolScheduler := toolScheduler this;
     currentResponse := currentResponse this;
     toolCompletionCallback := v;
     sentConfirmationEvents := sentConfirmationEvents this |}.
Definition set_sentConfirmationEvents (v : gset string)
    (this : ToolOrchestrator) : ToolOrchestrator :=
  {| toolScheduler := toolScheduler this;
     currentResponse := currentResponse this;
     toolCompletionCallback := toolCompletionCallback this;
     sentConfirmationEvents := v |}.

(** [typeof args?.command === 'string' ? args.command : undefined] *)
Definition command_of (a : option (gmap string JsValue)) : option string :=
  match a ≫= (.!! "command") with
  | Some (JsString c) => Some c
  | _ => None
  end.

(** [toolCalls.find((tc) => tc.request.callId === callId)] *)
Definition find_call (id : string) (tcs : list ToolCall) : option ToolCall :=
  List.find (λ tc, bool_decide (callId (request tc) = id)) tcs.

(** The loop of [cancelAllOperations]: every element of the scheduler's
    array is visited in order; an element waiting for approval or
    executing is logged and has its [status] overwritten. *)
Fixpoint cancel_live (tcs : list ToolCall) : list ToolCall * list Effect :=
  match tcs with
  | [] => ([], [])
  | toolCall :: rest =>
      match status toolCall with
      | awaiting_approval | executing =>
          (set_status cancelled toolCall :: (cancel_live rest).1,
           consoleLog [LogStr ("取消工具调用: " +:+ callId (request toolCall))]
             :: (cancel_live rest).2)
      | _ => (toolCall :: (cancel_live rest).1, (cancel_live rest).2)
      end
  end.

Section Orchestrator.

(** [Object.values(ToolConfirmationOutcome)]: the enum is declared in
    tools/tools.ts, which is absent; its values are a parameter.  An
    [outcome] reaches the method from a request body, so at run time it
    is any string. *)
Variable validOutcomes : list string.

(** ** The methods of [ToolOrchestrator] *)

(** [initializeScheduler]: [fresh] is the object [new CoreToolScheduler]
    returns. *)
Definition initializeScheduler (fresh : CoreToolScheduler) : M unit :=
  write (set_toolScheduler (Some fresh)).

Definition setToolCompletionCallback (callback : CompletionCallback) : M unit :=
  write (set_toolCompletionCallback (Some callback)).

(** The method is [async]: it runs to the call of [schedule] without
    yielding, and does nothing after the awaited promise settles. *)
Definition scheduleToolCalls (requests : list ToolCallRequestInfo)
    (abortSignal : AbortSignal) (response : Response) : M unit :=
  scheduler ← read toolScheduler;
  match scheduler with
  | None => throw SchedulerNotInitialized
  | Some _ =>
      write (set_currentResponse (Some response));;
      forEach requests (λ request,
        call (sendToolCallEvent response
                (callId request) (name request) (args request)));;
      call (schedule requests abortSignal)
  end.

Definition scheduleToolCall (request : ToolCallRequestInfo)
    (abortSignal : AbortSignal) (response : Response) : M unit :=
  scheduleToolCalls [request] abortSignal response.

(** [validOutcomes.includes(outcome)] is membership in the list.  The
    line logged before the delegation reads [toolCall.request.name]; the
    argument [toolCall.confirmationDetails.onConfirm] is evaluated after
    it. *)
Definition handleToolConfirmation (id outcome : string)
    (abortSignal : AbortSignal) : M unit :=
  scheduler ← read toolScheduler;
  match scheduler with
  | None => throw SchedulerNotInitialized
  | Some sch =>
      if negb (bool_decide (outcome ∈ validOutcomes)) then
        throw (InvalidOutcome outcome validOutcomes)
      else
        match find_call id (toolCalls sch) with
        | None => throw NotFoundOrNotAwaiting
        | Some toolCall =>
            if negb (bool_decide (status toolCall = awaiting_approval)) then
              throw NotFoundOrNotAwaiting
            else
              call (consoleLog [LogStr ("工具确认决策: callId=" +:+ id
                      +:+ ", toolName=" +:+ name (request toolCall)
                      +:+ ", outcome=" +:+ outcome)]);;
              match confirmationDetails toolCall with
              | None => throw TypeError_confirmationDetails
              | Some details =>
                  call (handleConfirmationResponse
                          id (onConfirm details) outcome abortSignal)
              end
        end
  end.

Definition clearCurrentResponse : M unit :=
  write (set_currentResponse None);;
  write (set_sentConfirmationEvents ∅).

(** [toolCalls] is a list here, so [Array.isArray(toolCalls)] holds. *)
Definition cancelAllOperations : M unit :=
  call (consoleLog [LogStr "ToolOrchestrator: 取消所有操作"]);;
  scheduler ← read toolScheduler;
  match scheduler with
  | Some sch =>
      forEach (cancel_live (toolCalls sch)).2 call;;
      write (set_toolScheduler
               (Some {| toolCalls := (cancel_live (toolCalls sch)).1 |}))
  | None => mret ()
  end;;
  clearCurrentResponse.

Definition handleAllToolCallsComplete (completedCalls : list ToolCall) : M unit :=
  call (consoleLog [LogStr "所有工具调用完成:"; LogNum (length completedCalls)]);;
  response ← read currentResponse;
  match response with
  | Some res =>
      forEach completedCalls (λ toolCall, call (sendToolResultEvent res toolCall))
  | None => mret ()
  end;;
  callback ← read toolCompletionCallback;
  match callback with
  | Some cb => call (invokeCompletionCallback cb completedCalls)
  | None => mret ()
  end.

(** The body of the loop of [handleToolCallsUpdate]; [res] is
    [this.currentResponse], which the loop does not assign. *)
Definition updateToolCall (res : Response) (toolCall : ToolCall) : M unit :=
  match status toolCall with
  | awaiting_approval =>
      sent ← read sentConfirmationEvents;
      if negb (bool_decide (callId (request toolCall) ∈ sent)) then
        call (consoleLog [LogStr "发送工具确认事件:";
                          LogStr (callId (request toolCall))]);;
        call (sendToolConfirmationEvent res
                (callId (request toolCall)) (name (request toolCall))
                (command_of (args (request toolCall)))
                (args (request toolCall)));;
        write (λ this, set_sentConfirmationEvents
                 ({[callId (request toolCall)]} ∪ sentConfirmationEvents this) this)
      else
        call (consoleLog [LogStr "跳过重复的工具确认事件:";
                          LogStr (callId (request toolCall))])
  | executing =>
      call (sendToolExecutionEvent res (callId (request toolCall)) "executing"
              ("正在执行 " +:+ name (request toolCall) +:+ "..."))
  | cancelled =>
      call (sendToolExecutionEvent res (callId (request toolCall)) "failed"
              ("工具调用已取消: " +:+ name (request toolCall)))
  | error =>
      call (sendToolExecutionEvent res (callId (request toolCall)) "failed"
              ("工具调用失败: " +:+ name (request toolCall)))
  | validating | success => mret ()
  end.

Definition handleToolCallsUpdate (tcs : list ToolCall) : M unit :=
  call (consoleLog [LogStr "工具调用状态更新:"; LogNum (length tcs)]);;
  response ← read currentResponse;
  match response with
  | Some res => forEach tcs (updateToolCall res)
  | None => mret ()
  end.

Definition handleOutputUpdate (id outputChunk : string) : M unit :=
  call (consoleLog [LogStr "工具输出更新:"; LogStr id; LogStr outputChunk]);;
  response ← read currentResponse;
  match response with
  | Some res => call (sendToolExecutionEvent res id "executing" outputChunk)
  | None => mret ()
  end.

End Orchestrator.

(** ** Runs of the orchestrator *)

(** What can happen to the object: one of its methods is invoked (by the
    chat handler, by the HTTP layer or, for the three handlers, by the
    scheduler), or the scheduler changes its own array of live calls. *)
Inductive Invocation :=
| do_initializeScheduler (fresh : CoreToolScheduler)
| do_setToolCompletionCallback (callback : CompletionCallback)
| do_scheduleToolCall (request : ToolCallRequestInfo)
    (abortSignal : AbortSignal) (response : Response)
| do_scheduleToolCalls (requests : list ToolCallRequestInfo)
    (abortSignal : AbortSignal) (response : Response)
| do_handleToolConfirmation (id outcome : string) (abortSignal : AbortSignal)
| do_clearCurrentResponse
| do_cancelAllOperations
| do_handleAllToolCallsComplete (completedCalls : list ToolCall)
| do_handleToolCallsUpdate (tcs : list ToolCall)
| do_handleOutputUpdate (id outputChunk : string)
| scheduler_progress (tcs : list ToolCall).

Definition invoke (validOutcomes : list string) (i : Invocation) : M unit :=
  match i with
  | do_initializeScheduler fresh => initializeScheduler fresh
  | do_setToolCompletionCallback callback => setToolCompletionCallback callback
  | do_scheduleToolCall request abortSignal response =>
      scheduleToolCall request abortSignal response
  | do_scheduleToolCalls requests abortSignal response =>
      scheduleToolCalls requests abortSignal response
  | do_handleToolConfirmation id outcome abortSignal =>
      handleToolConfirmation validOutcomes id outcome abortSignal
  | do_clearCurrentResponse => clearCurrentResponse
  | do_cancelAllOperations => cancelAllOperations
  | do_handleAllToolCallsComplete completedCalls =>
      handleAllToolCallsComplete completedCalls
  | do_handleToolCallsUpdate tcs => handleToolCallsUpdate tcs
  | do_handleOutputUpdate id outputChunk => handleOutputUpdate id outputChunk
  | scheduler_progress tcs =>
      write (λ this,
        match toolScheduler this with
        | Some _ => set_toolScheduler (Some {| toolCalls := tcs |}) this
        | None => this
        end)
  end.

(** A method that throws leaves the object as it was at the throw; the
    run goes on with the next invocation. *)
Fixpoint run (validOutcomes : list string) (steps : list Invocation)
    (this : ToolOrchestrator) : ToolOrchestrator * list Effect :=
  match steps with
  | [] => (this, [])
  | i :: rest =>
      let r := invoke validOutcomes i this in
      let r' := run validOutcomes rest (state_of r) in
      (r'.1, effects_of r ++ r'.2)
  end.

(** The two methods that release the current output channel. *)
Definition releases (i : Invocation) : bool :=
  match i with
  | do_clearCurrentResponse | do_cancelAllOperations => true
  | _ => false
  end.

(** ** Observations on the written output *)

(** The response an event is streamed on; [None] for the calls that are
    not events (scheduler, completion callback, console). *)
Definition channel_of (e : Effect) : option Response :=
  match e with
  | sendToolCallEvent res _ _ _
  | sendToolConfirmationEvent res _ _ _ _
  | sendToolExecutionEvent res _ _ _
  | sendToolResultEvent res _ => Some res
  | schedule _ _
  | handleConfirmationResponse _ _ _ _
  | invokeCompletionCallback _ _
  | consoleLog _ => None
  end.

Definition channel_events (out : list Effect) : list Effect :=
  List.filter (λ e, bool_decide (is_Some (channel_of e))) out.

Definition is_confirmation_request (res : Response) (id : string)
    (e : Effect) : bool :=
  match e with
  | sendToolConfirmationEvent res' id' _ _ _ =>
      bool_decide (res' = res) && bool_decide (id' = id)
  | _ => false
  end.

Definition confirmation_requests (res : Response) (id : string)
    (out : list Effect) : nat :=
  length (List.filter (is_confirmation_request res id) out).

Definition is_result_event (e : Effect) : bool :=
  match e with
  | sendToolResultEvent _ _ => true
  | _ => false
  end.

(** The callIds of the calls of a snapshot that wait for approval. *)
Definition awaiting_ids (tcs : list ToolCall) : gset string :=
  list_to_set
    (callId ∘ request <$>
       List.filter (λ tc, bool_decide (status tc = awaiting_approval)) tcs).

(** The life of one response object as the current output channel: it
    has never been recorded, it has been recorded and not released
    since, or it was released.  A response object belongs to one HTTP
    request; [single_tenure] says that a run does not record it again
    once it was released. *)
Inductive Tenure :=
| never_current
| in_use
| released.

Definition tenure_step (res : Response) (t : Tenure) (i : Invocation)
    : option Tenure :=
  match i with
  | do_scheduleToolCall _ _ response
  | do_scheduleToolCalls _ _ response =>
      if bool_decide (response = res) then
        match t with
        | released => None
        | _ => Some in_use
        end
      else Some t
  | do_clearCurrentResponse
  | do_cancelAllOperations =>
      Some (match t with in_use => released | _ => t end)
  | _ => Some t
  end.

Fixpoint single_tenure (res : Response) (t : Tenure) (steps : list Invocation)
    : bool :=
  match steps with
  | [] => true
  | i :: rest =>
      match tenure_step res t i with
      | Some t' => single_tenure res t' rest
      | None => false
      end
  end.

(** How many confirmation requests for [id] the rest of a run can still
    put on [res], by the tenure of [res] and the de-duplication set. *)
Definition budget (res : Response) (id : string) (t : Tenure)
    (this : ToolOrchestrator) : nat :=
  match t with
  | never_current => 1
  | in_use => if bool_decide (id ∈ sentConfirmationEvents this) then 0 else 1
  | released => 0
  end.

(** The calls of a snapshot that are not successful. *)
Definition not_success (tc : ToolCall) : bool :=
  negb (bool_decide (status tc = success)).

(** The single outcome of [cancelAllOperations]'s loop for one call. *)
Definition cancel_call (tc : ToolCall) : ToolCall :=
  match status tc with
  | awaiting_approval | executing => set_status cancelled tc
  | _ => tc
  end.

(** ** Sample objects *)

Definition sample_request (id nm : string) (a : option (gmap string JsValue))
    : ToolCallRequestInfo :=
  {| callId := id; name := nm; args := a |}.

Definition sample_call (id nm : string) (st : Status)
    (d : option ConfirmationDetails) : ToolCall :=
  {| request := sample_request id nm None;
     status := st;
     confirmationDetails := d;
     result := None;
     outputChunks := [] |}.

Definition sample_details : ConfirmationDetails :=
  {| description := "run a shell command"; onConfirm := 11 |}.

(** The batch of the scenario of section 8: [a] is executing, [b] waits
    for approval. *)
Definition sample_batch : list ToolCall :=
  [sample_call "a" "list_dir" executing None;
   sample_call "b" "exec" awaiting_approval (Some sample_details)].

Definition sample_orchestrator : ToolOrchestrator :=
  {| toolScheduler := Some {| toolCalls := sample_batch |};
     currentResponse := Some 7;
     toolCompletionCallback := Some 5;
     sentConfirmationEvents := ∅ |}.

(** The four outcome values the spec names. *)
Definition sample_outcomes : list string :=
  ["proceedOnce"; "proceedAlways"; "modifyWithEditor"; "cancel"].

(** One chat turn on response 7: the scheduler is initialized, the batch
    is scheduled, the scheduler reports its calls three times while [b]
    waits for approval, the chunk of [a] is streamed, and the turn is
    cancelled. *)
Definition sample_run : list Invocation :=
  [do_initializeScheduler {| toolCalls := [] |};
   do_scheduleToolCalls
     [sample_request "a" "list_dir" None; sample_request "b" "exec" None] 0 7;
   scheduler_progress sample_batch;
   do_handleToolCallsUpdate sample_batch;
   do_handleOutputUpdate "a" "file.txt";
   do_handleToolCallsUpdate sample_batch;
   do_handleToolCallsUpdate sample_batch;
   do_cancelAllOperations].

(** ** Further observations on the written output *)


(** The registered completion callback is called. *)
Definition is_completion_callback (e : Effect) : bool :=
  match e with
  | invokeCompletionCallback _ _ => true
  | _ => false
  end.

Definition is_execution_event (e : Effect) : bool :=
  match e with
  | sendToolExecutionEvent _ _ _ _ => true
  | _ => false
  end.

(** The statuses a status update reports with an execution event. *)
Definition reported_as_execution (tc : ToolCall) : bool :=
  match status tc with
  | executing | cancelled | error => true
  | _ => false
  end.

(** The response an invocation hands to the orchestrator. *)
Definition recorded_by (i : Invocation) : option Response :=
  match i with
  | do_scheduleToolCall _ _ response
  | do_scheduleToolCalls _ _ response => Some response
  | _ => None
  end.

(** The callIds for which a confirmation request was sent. *)
Definition confirmed_ids (out : list Effect) : gset string :=
  list_to_set
    (omap (λ e, match e with
                | sendToolConfirmationEvent _ id _ _ _ => Some id
                | _ => None
                end) out).

(** * Response bodies: [server/utils/responseFactory.ts] *)

(** JavaScript values as the response code handles them.  An object is
    the finite map of its own enumerable properties (an array is the
    object of its indices: [typeof], property reads, rest patterns and
    spreads see no more of it); a number is an integer. *)
Inductive Value :=
| VUndefined
| VNull
| VBool (b : bool)
| VNumber (z : Z)
| VString (s : string)
| VObject (props : gmap string Value)
| VFunction (ref : nat).

(** [typeof v] *)
Definition typeof (v : Value) : string :=
  match v with
  | VUndefined => "undefined"
  | VNull | VObject _ => "object"
  | VBool _ => "boolean"
  | VNumber _ => "number"
  | VString _ => "string"
  | VFunction _ => "function"
  end.

(** The value as a condition: [!!v]. *)
Definition truthy (v : Value) : bool :=
  match v with
  | VUndefined | VNull => false
  | VBool b => b
  | VNumber z => negb (bool_decide (z = 0%Z))
  | VString s => negb (bool_decide (s = ""))
  | VObject _ | VFunction _ => true
  end.

(** [v.k], read after the guards that make [v] a non-null object. *)
Definition prop (k : string) (v : Value) : Value :=
  match v with
  | VObject props => default VUndefined (props !! k)
  | _ => VUndefined
  end.

(** [v === z] for a number literal [z]. *)
Definition is_number (z : Z) (v : Value) : bool :=
  match v with
  | VNumber z' => bool_decide (z' = z)
  | _ => false
  end.

(** ['k' in v], for a plain object. *)
Definition has_prop (k : string) (v : Value) : bool :=
  match v with
  | VObject props => bool_decide (is_Some (props !! k))
  | _ => false
  end.

(** [{...o, ...(v && {k: v})}]: the spread of a falsy value adds
    nothing. *)
Definition spread_if_truthy (k : string) (v : Value)
    (o : gmap string Value) : gmap string Value :=
  if truthy v then <[k := v]> o else o.

(** The members of [enum ErrorCode] (types/error-codes.ts, absent) that
    the sources name. *)
Inductive ErrorCode :=
| VALIDATION_ERROR
| AUTH_REQUIRED
| INTERNAL_ERROR
| CLIENT_NOT_INITIALIZED.

(** What types/error-codes.ts declares and the response code uses: the
    table [ERROR_TO_HTTP_STATUS], and the text of a code in a template
    literal.  Both are parameters. *)
Record ErrorCodes := {
  ERROR_TO_HTTP_STATUS : ErrorCode → Z;
  ErrorCode_text : ErrorCode → string
}.

(** Each function that builds a response reads the clock once
    ([new Date().toISOString()]); [now] is what it reads. *)
Module ResponseFactory.

(** [message] is [None] when the argument is left out. *)
Definition success (now : string) (data : Value) (message : option string)
    : Value :=
  VObject (<["code" := VNumber 200]>
           (<["message" := VString (default "操作成功" message)]>
            (<["data" := data]>
             (<["timestamp" := VString now]> ∅)))).

Definition error (now : string) (message : string) (statusCode : option Z)
    : Value :=
  VObject (<["code" := VNumber (default 500%Z statusCode)]>
           (<["message" := VString message]>
            (<["timestamp" := VString now]> ∅))).

(** [customMessage || `Error: ${errorCode}`] *)
Definition errorWithCode (codes : ErrorCodes) (now : string)
    (errorCode : ErrorCode) (customMessage : option string) : Value :=
  VObject (<["code" := VNumber (ERROR_TO_HTTP_STATUS codes errorCode)]>
           (<["message" :=
                VString (match customMessage with
                         | Some m =>
                             if bool_decide (m = "")
                             then "Error: " +:+ ErrorCode_text codes errorCode
                             else m
                         | None => "Error: " +:+ ErrorCode_text codes errorCode
                         end)]>
            (<["timestamp" := VString now]> ∅))).

Definition toolConfirmation (now : string) (message : string) : Value :=
  success now (VObject {["message" := VString message]}) None.

Definition validationError (codes : ErrorCodes) (now : string)
    (field message : string) : Value :=
  errorWithCode codes now VALIDATION_ERROR
    (Some (field +:+ ": " +:+ message)).

Definition authError (codes : ErrorCodes) (now : string) (message : string)
    : Value :=
  errorWithCode codes now AUTH_REQUIRED (Some message).

Definition notFoundError (now : string) (resource : string) : Value :=
  error now (resource +:+ " not found") (Some 404%Z).

Definition internalError (codes : ErrorCodes) (now : string)
    (message : string) : Value :=
  errorWithCode codes now INTERNAL_ERROR (Some message).

(** [content] is a string or [null]; [message] is optional. *)
Definition readFile (now : string) (path : string) (content : option string)
    (ok : bool) (message : option string) : Value :=
  success now
    (VObject
       (spread_if_truthy "message"
          (from_option VString VUndefined message)
          (<["path" := VString path]>
           (<["content" := from_option VString VNull content]>
            (<["success" := VBool ok]> ∅)))))
    None.

Definition writeFile (now : string) (path content : string) (ok : bool)
    (message : option string) : Value :=
  success now
    (VObject
       (spread_if_truthy "message"
          (from_option VString VUndefined message)
          (<["path" := VString path]>
           (<["content" := VString content]>
            (<["success" := VBool ok]> ∅)))))
    None.

Definition modelSwitch (now : string) (model : Value) (message : string)
    : Value :=
  success now (VObject {["model" := model]}) (Some message).

End ResponseFactory.

Module ResponseValidator.

Definition validateBaseResponse (response : Value) : bool :=
  bool_decide (typeof response = "object")
  && negb (match response with VNull => true | _ => false end)
  && bool_decide (typeof (prop "code" response) = "number")
  && bool_decide (typeof (prop "message" response) = "string")
  && bool_decide (typeof (prop "timestamp" response) = "string").

Definition validateErrorResponse (response : Value) : bool :=
  validateBaseResponse response
  && negb (is_number 200 (prop "code" response))
  && bool_decide (typeof (prop "message" response) = "string").

Definition validateSuccessResponse (response : Value) : bool :=
  validateBaseResponse response
  && is_number 200 (prop "code" response).

(** The object branch destructures
    [{ message, error, ...rest } = response] and rebuilds
    [{...rest, ...(message && { message }), ...(error && { error })}]. *)
Definition normalizeResponse (codes : ErrorCodes) (now : string)
    (response : Value) : Value :=
  if validateBaseResponse response then response
  else if bool_decide (typeof response = "string") then
    ResponseFactory.success now
      (VObject {["response" := response]}) None
  else
    match response with
    | VObject props =>
        ResponseFactory.success now
          (VObject
             (spread_if_truthy "error" (prop "error" response)
                (spread_if_truthy "message" (prop "message" response)
                   (delete "error" (delete "message" props)))))
          None
    | _ =>
        ResponseFactory.internalError codes now "Invalid response format"
    end.

End ResponseValidator.

(** How a call of a method or of a collaborator ends: it returns a
    value, or it throws; the catch clauses read the message of an
    [Error] and say "Unknown error" for anything else. *)
Inductive Thrown :=
| thrown_Error (message : string)
| thrown_other.

Definition errorMessage_of (e : Thrown) : string :=
  match e with
  | thrown_Error m => m
  | thrown_other => "Unknown error"
  end.

Inductive Settled (A : Type) :=
| returns (v : A)
| throws (e : Thrown).
Arguments returns {A} v.
Arguments throws {A} e.

(** [res.json] as [responseStandardizationMiddleware] replaces it:
    [originalJson] receives the normalized body. *)
Definition responseStandardizationMiddleware {A} (codes : ErrorCodes)
    (now : string) (originalJson : Value → A) (data : Value) : A :=
  originalJson (ResponseValidator.normalizeResponse codes now data).

(** The method a [standardizeResponse] decorator installs, by how the
    decorated method ends. *)
Definition standardizeResponse (codes : ErrorCodes) (now : string)
    (method : Settled Value) : Value :=
  match method with
  | returns result =>
      if truthy result && bool_decide (typeof result = "object")
         && has_prop "code" result
      then ResponseValidator.normalizeResponse codes now result
      else result
  | throws e => ResponseFactory.internalError codes now (errorMessage_of e)
  end.

(** * The HTTP handlers of [server/core/GeminiService.ts] that drive the
    orchestrator *)

(** What a handler does outwards: it logs, it replies on the HTTP
    response ([res.status(n).json(body)]; [res.json] replies with 200),
    it calls the chat handler, and the orchestrator it calls has its own
    effects. *)
Inductive ServiceEffect :=
| service_log (line : string) (fields : list (string * option string))
| service_error (line : string) (e : Thrown)
| reply (status : Z) (body : Value)
| cancelCurrentChat
| config_setModel (model : string)
| clientManager_setCurrentModel (model : string)
| orchestrator (e : Effect).

Definition is_reply (e : ServiceEffect) : bool :=
  match e with
  | reply _ _ => true
  | _ => false
  end.

(** The replies of a handler, in order. *)
Definition replies (out : list ServiceEffect) : list (Z * Value) :=
  omap (λ e, match e with
             | reply status body => Some (status, body)
             | _ => None
             end) out.

(** [!s] for a body field that is a string or missing. *)
Definition missing (s : option string) : bool :=
  match s with
  | None => true
  | Some s => bool_decide (s = "")
  end.

(** [s.includes(needle)] *)
Fixpoint includes (needle s : string) : bool :=
  String.prefix needle s
  || match s with
     | EmptyString => false
     | String _ rest => includes needle rest
     end.

(** The result of [checkModelAvailability]. *)
Record Availability := {
  available : bool;
  availability_status : string;
  availability_message : string
}.

(** What [authService.getContentGeneratorConfig()] settles with: the
    [apiKey] of the configuration, [None] when the configuration or the
    key is missing. *)
Inductive ConfigOutcome :=
| config_resolves (apiKey : option string)
| config_rejects.

(** What importing core/modelCheck.js and calling [getEffectiveModel]
    settles with. *)
Inductive EffectiveOutcome :=
| effective_resolves (effectiveModel : string)
| effective_rejects.

Module GeminiService.

(** [handleToolConfirmation(req, res)].  The body fields are what
    [req.body as ToolConfirmationRequest] declares, a string or
    missing; [factoryInitialized] is
    [configFactory.isFactoryInitialized()], [abortSignal] the signal
    of the fresh [AbortController], and [delegated] how the promise of
    the scheduler's [handleConfirmationResponse] settles when the
    orchestrator reaches it. *)
Definition handleToolConfirmation (codes : ErrorCodes)
    (validOutcomes : list string) (now : string)
    (factoryInitialized : bool) (abortSignal : AbortSignal)
    (delegated : Settled unit) (callId outcome : option string)
    (this : ToolOrchestrator) : ToolOrchestrator * list ServiceEffect :=
  let log := service_log "Processing tool confirmation request"
               [("callId", callId); ("outcome", outcome)] in
  if missing callId then
    (this,
     [log; reply 400 (ResponseFactory.validationError codes now
                        "callId" "Tool call ID is required")])
  else if missing outcome
          || negb (bool_decide (default "" outcome ∈ validOutcomes)) then
    (this,
     [log; reply 400 (ResponseFactory.validationError codes now
                        "outcome" "Valid outcome is required")])
  else if negb factoryInitialized then
    (this,
     [log; reply 400 (ResponseFactory.errorWithCode codes now
                        CLIENT_NOT_INITIALIZED
                        (Some "System not initialized. Please start a chat first."))])
  else
    let r := handleToolConfirmation validOutcomes
               (default "" callId) (default "" outcome) abortSignal this in
    let settled :=
      match outcome_of r with
      | inl e => throws (thrown_Error (message e))
      | inr _ => delegated
      end in
    (state_of r,
     log :: (orchestrator <$> effects_of r)
     ++ match settled with
        | returns _ =>
            [reply 200 (ResponseFactory.toolConfirmation now
                          "Tool confirmation processed successfully")]
        | throws e =>
            [service_error "Error in handleToolConfirmation:" e;
             reply 500 (ResponseFactory.internalError codes now
                          (errorMessage_of e))]
        end).

(** [handleCancelChat(res)]; [chatCancelled] is how
    [chatHandler.cancelCurrentChat()] ends. *)
Definition handleCancelChat (codes : ErrorCodes) (now : string)
    (chatCancelled : Settled unit) (this : ToolOrchestrator)
    : ToolOrchestrator * list ServiceEffect :=
  let log := service_log "Processing chat cancellation request" [] in
  match chatCancelled with
  | throws e =>
      (this,
       [log; cancelCurrentChat;
        service_error "Error in handleCancelChat:" e;
        reply 500 (ResponseFactory.internalError codes now
                     (errorMessage_of e))])
  | returns _ =>
      let r := cancelAllOperations this in
      (state_of r,
       [log; cancelCurrentChat] ++ (orchestrator <$> effects_of r)
       ++ [reply 200 (ResponseFactory.success now
                        (VObject {["message" :=
                                     VString "Chat cancelled successfully"]})
                        None)])
  end.

(** [checkModelAvailability(model, authService)]; the two outcomes are
    asked for only on the paths that await them. *)
Definition checkModelAvailability (model : string)
    (config : ConfigOutcome) (effective : EffectiveOutcome) : Availability :=
  if includes "flash" model then
    {| available := true;
       availability_status := "available";
       availability_message := "Flash model is always available" |}
  else if includes "pro" model then
    match config with
    | config_rejects =>
        {| available := false;
           availability_status := "unknown";
           availability_message := "Error checking model availability" |}
    | config_resolves apiKey =>
        if negb (missing apiKey) then
          match effective with
          | effective_rejects =>
              {| available := false;
                 availability_status := "unknown";
                 availability_message := "Error checking model availability" |}
          | effective_resolves effectiveModel =>
              if bool_decide (effectiveModel = model) then
                {| available := true;
                   availability_status := "available";
                   availability_message := "Pro model is available" |}
              else
                {| available := false;
                   availability_status := "unavailable";
                   availability_message :=
                     "Pro model is currently rate-limited or unavailable" |}
          end
        else
          {| available := true;
             availability_status := "unknown";
             availability_message :=
               "Cannot check Pro model availability without API Key (using OAuth)" |}
    end
  else
    {| available := true;
       availability_status := "unknown";
       availability_message := "Model availability status unknown" |}.

(** [handleModelSwitch(req, res)].  [model] is the body field, a
    string or missing; [SUPPORTED_MODELS] is the list of the two
    default model names of config/models.ts (absent);
    [currentModel] is [None] when the workspace container has no
    [config] and else what [config.getModel()] returns; the reads of
    the configuration factory are taken to return, and
    [setModel_ends], [setCurrentModel_ends] say how [config.setModel]
    and [clientManager.setCurrentModel] end. *)
Definition handleModelSwitch (codes : ErrorCodes) (now : string)
    (SUPPORTED_MODELS : list string) (factoryInitialized : bool)
    (currentModel : option string)
    (setModel_ends setCurrentModel_ends : Settled unit)
    (config : ConfigOutcome) (effective : EffectiveOutcome)
    (model : option string) : list ServiceEffect :=
  if missing model then
    [reply 400 (ResponseFactory.validationError codes now
                  "model" "Model name is required")]
  else
    let target := default "" model in
    let log := service_log "Processing model switch request"
                 [("targetModel", model)] in
    if negb factoryInitialized then
      [log; reply 400 (ResponseFactory.validationError codes now "system"
                         "System not initialized. Please start a chat first.")]
    else
      match currentModel with
      | None =>
          [log; reply 400 (ResponseFactory.validationError codes now
                             "system" "Config not initialized.")]
      | Some current =>
          if bool_decide (current = target) then
            [log;
             reply 200 (ResponseFactory.modelSwitch now
                          (VObject
                             (<["name" := VString target]>
                              (<["previousModel" := VString current]>
                               (<["switched" := VBool false]> ∅))))
                          ("Already using model: " +:+ target))]
          else if negb (bool_decide (target ∈ SUPPORTED_MODELS)) then
            [log;
             reply 400 (ResponseFactory.validationError codes now "model"
                          ("Invalid model name. Valid models: "
                           +:+ join ", " SUPPORTED_MODELS))]
          else
            match setModel_ends with
            | throws e =>
                [log; config_setModel target;
                 service_error "Error in handleModelSwitch:" e;
                 reply 500 (ResponseFactory.internalError codes now
                              (errorMessage_of e))]
            | returns _ =>
                match setCurrentModel_ends with
                | throws e =>
                    [log; config_setModel target;
                     clientManager_setCurrentModel target;
                     service_error "Error in handleModelSwitch:" e;
                     reply 500 (ResponseFactory.internalError codes now
                                  (errorMessage_of e))]
                | returns _ =>
                    let modelAvailability :=
                      checkModelAvailability target config effective in
                    [log; config_setModel target;
                     clientManager_setCurrentModel target;
                     reply 200
                       (ResponseFactory.modelSwitch now
                          (VObject
                             (<["name" := VString target]>
                              (<["previousModel" := VString current]>
                               (<["switched" := VBool true]>
                                (<["available" :=
                                     VBool (available modelAvailability)]>
                                 (<["status" :=
                                      VString (availability_status
                                                 modelAvailability)]>
                                  (<["availabilityMessage" :=
                                       VString (availability_message
                                                  modelAvailability)]>
                                   ∅)))))))
                          ("Model switched successfully from " +:+ current
                           +:+ " to " +:+ target))]
                end
            end
      end.

End GeminiService.

(** Sample tables and values. *)
Definition sample_codes : ErrorCodes :=
  {| ERROR_TO_HTTP_STATUS := λ c,
       match c with
       | VALIDATION_ERROR => 400%Z
       | AUTH_REQUIRED => 401%Z
       | INTERNAL_ERROR => 500%Z
       | CLIENT_NOT_INITIALIZED => 400%Z
       end;
     ErrorCode_text := λ c,
       match c with
       | VALIDATION_ERROR => "VALIDATION_ERROR"
       | AUTH_REQUIRED => "AUTH_REQUIRED"
       | INTERNAL_ERROR => "INTERNAL_ERROR"
       | CLIENT_NOT_INITIALIZED => "CLIENT_NOT_INITIALIZED"
       end |}.

Definition sample_now : string := "2025-07-04T00:00:00.000Z".

(** * Properties *)

(** ** Running the monad *)

Lemma bind_run {A B} (m : M A) (k : A → M B) this :
  (m ≫= k) this =
    match m this with
    | (inl e, this', out) => (inl e, this', out)
    | (inr x, this', out) =>
        ((k x this').1.1, (k x this').1.2, out ++ (k x this').2)
    end.
Proof.
  unfold mbind, M_bind.
  destruct (m this) as [[[e|x] this'] out]; [done|].
  by destruct (k x this') as [[r this''] out'].
Qed.

Lemma forEach_call {A} (f : A → Effect) (l : list A) this :
  forEach l (λ x, call (f x)) this = (inr (), this, f <$> l).
Proof.
  induction l as [|x l IH]; [done|].
  cbn [forEach]. rewrite bind_run. unfold call at 1. by rewrite IH.
Qed.

Lemma forEach_calls (l : list Effect) this :
  forEach l call this = (inr (), this, l).
Proof.
  induction l as [|x l IH]; [done|].
  cbn [forEach]. rewrite bind_run. unfold call at 1. by rewrite IH.
Qed.

(** ** What each method does, as an equation *)

Lemma scheduleToolCalls_uninitialized requests abortSignal response this :
  toolScheduler this = None →
  scheduleToolCalls requests abortSignal response this
  = (inl SchedulerNotInitialized, this, []).
Proof. intros H. unfold scheduleToolCalls. rewrite bind_run. cbn. by rewrite H. Qed.

Lemma scheduleToolCalls_initialized requests abortSignal response this :
  is_Some (toolScheduler this) →
  scheduleToolCalls requests abortSignal response this
  = (inr (), set_currentResponse (Some response) this,
     ((λ request, sendToolCallEvent response
                    (callId request) (name request) (args request))
        <$> requests)
     ++ [schedule requests abortSignal]).
Proof.
  intros [sch H]. unfold scheduleToolCalls. rewrite bind_run. cbn. rewrite H.
  rewrite bind_run. cbn. rewrite bind_run, forEach_call. done.
Qed.

Lemma clearCurrentResponse_run this :
  clearCurrentResponse this
  = (inr (),
     {| toolScheduler := toolScheduler this;
        currentResponse := None;
        toolCompletionCallback := toolCompletionCallback this;
        sentConfirmationEvents := ∅ |},
     []).
Proof. done. Qed.

Lemma cancelAllOperations_run this :
  cancelAllOperations this
  = (inr (),
     {| toolScheduler :=
          (λ sch, {| toolCalls := (cancel_live (toolCalls sch)).1 |})
            <$> toolScheduler this;
        currentResponse := None;
        toolCompletionCallback := toolCompletionCallback this;
        sentConfirmationEvents := ∅ |},
     consoleLog [LogStr "ToolOrchestrator: 取消所有操作"]
       :: match toolScheduler this with
          | Some sch => (cancel_live (toolCalls sch)).2
          | None => []
          end).
Proof.
  unfold cancelAllOperations. rewrite !bind_run. cbn. rewrite !bind_run. cbn.
  destruct (toolScheduler this) as [sch|] eqn:H; cbn.
  - rewrite !bind_run, forEach_calls. cbn.
    rewrite clearCurrentResponse_run. cbn. by rewrite !app_nil_r.
  - rewrite bind_run. cbn. rewrite clearCurrentResponse_run. cbn. by rewrite H.
Qed.

Ltac run_M :=
  repeat first
    [ rewrite bind_run | rewrite forEach_call | rewrite forEach_calls
    | progress cbn ].

Lemma handleAllToolCallsComplete_run completedCalls this :
  handleAllToolCallsComplete completedCalls this
  = (inr (), this,
     consoleLog [LogStr "所有工具调用完成:"; LogNum (length completedCalls)]
       :: match currentResponse this with
          | Some res => sendToolResultEvent res <$> completedCalls
          | None => []
          end
       ++ match toolCompletionCallback this with
          | Some cb => [invokeCompletionCallback cb completedCalls]
          | None => []
          end).
Proof.
  unfold handleAllToolCallsComplete.
  destruct (currentResponse this) as [res|] eqn:Hres;
    destruct (toolCompletionCallback this) as [cb|] eqn:Hcb;
    run_M; rewrite ?Hres; run_M; rewrite ?Hcb; run_M;
    by rewrite ?app_nil_r.
Qed.

Lemma handleOutputUpdate_run id outputChunk this :
  handleOutputUpdate id outputChunk this
  = (inr (), this,
     consoleLog [LogStr "工具输出更新:"; LogStr id; LogStr outputChunk]
       :: match currentResponse this with
          | Some res => [sendToolExecutionEvent res id "executing" outputChunk]
          | None => []
          end).
Proof.
  unfold handleOutputUpdate.
  destruct (currentResponse this) as [res|] eqn:Hres;
    run_M; rewrite ?Hres; by run_M.
Qed.

Lemma handleToolConfirmation_run validOutcomes id outcome abortSignal this :
  handleToolConfirmation validOutcomes id outcome abortSignal this
  = match toolScheduler this with
    | None => (inl SchedulerNotInitialized, this, [])
    | Some sch =>
        if bool_decide (outcome ∈ validOutcomes) then
          match find_call id (toolCalls sch) with
          | None => (inl NotFoundOrNotAwaiting, this, [])
          | Some toolCall =>
              if bool_decide (status toolCall = awaiting_approval) then
                match confirmationDetails toolCall with
                | None =>
                    (inl TypeError_confirmationDetails, this,
                     [consoleLog [LogStr ("工具确认决策: callId=" +:+ id
                        +:+ ", toolName=" +:+ name (request toolCall)
                        +:+ ", outcome=" +:+ outcome)]])
                | Some details =>
                    (inr (), this,
                     [consoleLog [LogStr ("工具确认决策: callId=" +:+ id
                        +:+ ", toolName=" +:+ name (request toolCall)
                        +:+ ", outcome=" +:+ outcome)];
                      handleConfirmationResponse
                        id (onConfirm details) outcome abortSignal])
                end
              else (inl NotFoundOrNotAwaiting, this, [])
          end
        else (inl (InvalidOutcome outcome validOutcomes), this, [])
    end.
Proof.
  unfold handleToolConfirmation. rewrite bind_run. cbn.
  destruct (toolScheduler this) as [sch|]; [|done].
  destruct (bool_decide (outcome ∈ validOutcomes)); [|done]. cbn.
  destruct (find_call id (toolCalls sch)) as [toolCall|]; [|done].
  destruct (bool_decide (status toolCall = awaiting_approval)); [|done]. cbn.
  by destruct (confirmationDetails toolCall); run_M.
Qed.

(** ** The loop of [handleToolCallsUpdate] *)

Lemma updateToolCall_outcome res tc this :
  outcome_of (updateToolCall res tc this) = inr ().
Proof.
  unfold updateToolCall.
  destruct (status tc); try done.
  rewrite bind_run. cbn.
  by destruct (bool_decide (callId (request tc) ∈ sentConfirmationEvents this));
    run_M.
Qed.

Lemma updateToolCall_state res tc this :
  state_of (updateToolCall res tc this)
  = set_sentConfirmationEvents
      (if bool_decide (status tc = awaiting_approval)
       then {[callId (request tc)]} ∪ sentConfirmationEvents this
       else sentConfirmationEvents this)
      this.
Proof.
  unfold updateToolCall.
  destruct (status tc); cbn; try by destruct this.
  rewrite bind_run. cbn.
  destruct (bool_decide_reflect
              (callId (request tc) ∈ sentConfirmationEvents this)) as [Hin|Hin];
    run_M; [|done].
  destruct this as [sch cur cb sent]; cbn in *.
  unfold set_sentConfirmationEvents; cbn. f_equal. set_solver.
Qed.

Lemma updateToolCall_confirmations res tc this res' id :
  confirmation_requests res' id (effects_of (updateToolCall res tc this))
  = (if bool_decide (status tc = awaiting_approval
                     ∧ callId (request tc) ∉ sentConfirmationEvents this
                     ∧ res = res' ∧ callId (request tc) = id)
     then 1 else 0).
Proof.
  unfold updateToolCall, confirmation_requests.
  destruct (status tc); cbn;
    try (rewrite bool_decide_eq_false_2; [done | by intros [? _]]).
  rewrite bind_run. cbn.
  destruct (bool_decide_reflect
              (callId (request tc) ∈ sentConfirmationEvents this)) as [Hin|Hin];
    run_M.
  - rewrite bool_decide_eq_false_2; [done | by intros (_ & ? & _)].
  - destruct (bool_decide_reflect (res = res')) as [->|Hres];
      destruct (bool_decide_reflect (callId (request tc) = id)) as [<-|Hid]; cbn.
    + by rewrite bool_decide_eq_true_2.
    + rewrite bool_decide_eq_false_2; [done | by intros (_ & _ & _ & ?)].
    + rewrite bool_decide_eq_false_2; [done | by intros (_ & _ & ? & _)].
    + rewrite bool_decide_eq_false_2; [done | by intros (_ & _ & ? & _)].
Qed.

Lemma confirmation_requests_app res id out1 out2 :
  confirmation_requests res id (out1 ++ out2)
  = confirmation_requests res id out1 + confirmation_requests res id out2.
Proof.
  unfold confirmation_requests. by rewrite List.filter_app, length_app.
Qed.

Lemma awaiting_ids_cons tc tcs :
  awaiting_ids (tc :: tcs)
  = (if bool_decide (status tc = awaiting_approval)
     then {[callId (request tc)]} else ∅) ∪ awaiting_ids tcs.
Proof.
  unfold awaiting_ids. cbn.
  destruct (bool_decide (status tc = awaiting_approval)); cbn; set_solver.
Qed.

Lemma forEach_updateToolCall_cons res tc tcs this :
  forEach (tc :: tcs) (updateToolCall res) this
  = (outcome_of (forEach tcs (updateToolCall res)
                   (state_of (updateToolCall res tc this))),
     state_of (forEach tcs (updateToolCall res)
                 (state_of (updateToolCall res tc this))),
     effects_of (updateToolCall res tc this)
       ++ effects_of (forEach tcs (updateToolCall res)
                        (state_of (updateToolCall res tc this)))).
Proof.
  cbn [forEach]. rewrite bind_run.
  pose proof (updateToolCall_outcome res tc this) as Hout.
  unfold outcome_of, state_of, effects_of in *.
  destruct (updateToolCall res tc this) as [[[e|[]] s] out]; by cbn in *.
Qed.

Lemma forEach_updateToolCall res tcs this :
  outcome_of (forEach tcs (updateToolCall res) this) = inr ()
  ∧ state_of (forEach tcs (updateToolCall res) this)
    = set_sentConfirmationEvents
        (sentConfirmationEvents this ∪ awaiting_ids tcs) this.
Proof.
  revert this. induction tcs as [|tc tcs IH]; intros this.
  - split; [done|]. cbn. destruct this as [sch cur cb sent].
    unfold set_sentConfirmationEvents, state_of; cbn. f_equal.
    unfold awaiting_ids; cbn. set_solver.
  - rewrite forEach_updateToolCall_cons.
    destruct (IH (state_of (updateToolCall res tc this))) as [IHo IHs].
    split; [done|].
    unfold state_of at 1; cbn [fst snd]. rewrite IHs, updateToolCall_state.
    rewrite awaiting_ids_cons.
    destruct this as [sch cur cb sent].
    unfold set_sentConfirmationEvents; cbn. f_equal.
    destruct (bool_decide (status tc = awaiting_approval)); set_solver.
Qed.

Lemma forEach_updateToolCall_confirmations res tcs this res' id :
  confirmation_requests res' id
    (effects_of (forEach tcs (updateToolCall res) this))
  = (if bool_decide (res = res' ∧ id ∉ sentConfirmationEvents this
                     ∧ id ∈ awaiting_ids tcs)
     then 1 else 0).
Proof.
  revert this. induction tcs as [|tc tcs IH]; intros this.
  - cbn. rewrite bool_decide_eq_false_2; [done|].
    intros (_ & _ & H). unfold awaiting_ids in H. cbn in H. set_solver.
  - rewrite forEach_updateToolCall_cons.
    unfold effects_of at 1; cbn [fst snd].
    rewrite confirmation_requests_app, IH, updateToolCall_confirmations,
      updateToolCall_state, awaiting_ids_cons.
    destruct this as [sch cur cb sent]; cbn.
    destruct (bool_decide_reflect (status tc = awaiting_approval)) as [Hst|Hst].
    + destruct (decide (callId (request tc) = id)) as [Hid|Hid];
        repeat case_bool_decide; try done; exfalso; naive_solver set_solver.
    + repeat case_bool_decide; try done; exfalso; naive_solver set_solver.
Qed.

Lemma handleToolCallsUpdate_run tcs this :
  handleToolCallsUpdate tcs this
  = (inr (),
     match currentResponse this with
     | Some res =>
         set_sentConfirmationEvents
           (sentConfirmationEvents this ∪ awaiting_ids tcs) this
     | None => this
     end,
     consoleLog [LogStr "工具调用状态更新:"; LogNum (length tcs)]
       :: match currentResponse this with
          | Some res => effects_of (forEach tcs (updateToolCall res) this)
          | None => []
          end).
Proof.
  unfold handleToolCallsUpdate. rewrite !bind_run. cbn. rewrite bind_run. cbn.
  destruct (currentResponse this) as [res|]; [|done].
  destruct (forEach_updateToolCall res tcs this) as [Ho Hs].
  unfold outcome_of, state_of, effects_of in *.
  by rewrite Ho, Hs.
Qed.

(** ** What one invocation does to the fields and to the channel *)

Lemma confirmation_requests_none res id out :
  Forall (λ e, is_confirmation_request res id e = false) out →
  confirmation_requests res id out = 0.
Proof.
  unfold confirmation_requests.
  induction 1 as [|e out He _ IH]; [done|]. cbn. by rewrite He.
Qed.

Lemma cancel_live_logs tcs :
  Forall (λ e, ∃ line, e = consoleLog line) (cancel_live tcs).2.
Proof.
  induction tcs as [|tc tcs IH]; cbn; [constructor|].
  destruct (status tc); cbn; eauto.
Qed.

Lemma invoke_sentConfirmationEvents validOutcomes i this :
  sentConfirmationEvents (state_of (invoke validOutcomes i this))
  = match i with
    | do_clearCurrentResponse | do_cancelAllOperations => ∅
    | do_handleToolCallsUpdate tcs =>
        match currentResponse this with
        | Some _ => sentConfirmationEvents this ∪ awaiting_ids tcs
        | None => sentConfirmationEvents this
        end
    | _ => sentConfirmationEvents this
    end.
Proof.
  destruct i; cbn [invoke]; try done.
  - unfold scheduleToolCall.
    destruct (toolScheduler this) as [sch|] eqn:H.
    + by rewrite scheduleToolCalls_initialized.
    + by rewrite scheduleToolCalls_uninitialized.
  - destruct (toolScheduler this) as [sch|] eqn:H.
    + by rewrite scheduleToolCalls_initialized.
    + by rewrite scheduleToolCalls_uninitialized.
  - rewrite handleToolConfirmation_run.
    repeat (case_match; try done).
  - by rewrite cancelAllOperations_run.
  - by rewrite handleAllToolCallsComplete_run.
  - rewrite handleToolCallsUpdate_run. unfold state_of.
    by destruct (currentResponse this) eqn:Hres; cbn.
  - by rewrite handleOutputUpdate_run.
  - unfold write, state_of; cbn. by destruct (toolScheduler this).
Qed.

Lemma invoke_currentResponse validOutcomes i this :
  currentResponse (state_of (invoke validOutcomes i this))
  = match i with
    | do_clearCurrentResponse | do_cancelAllOperations => None
    | do_scheduleToolCall _ _ response
    | do_scheduleToolCalls _ _ response =>
        match toolScheduler this with
        | Some _ => Some response
        | None => currentResponse this
        end
    | _ => currentResponse this
    end.
Proof.
  destruct i; cbn [invoke]; try done.
  - unfold scheduleToolCall.
    destruct (toolScheduler this) as [sch|] eqn:H.
    + by rewrite scheduleToolCalls_initialized.
    + by rewrite scheduleToolCalls_uninitialized.
  - destruct (toolScheduler this) as [sch|] eqn:H.
    + by rewrite scheduleToolCalls_initialized.
    + by rewrite scheduleToolCalls_uninitialized.
  - rewrite handleToolConfirmation_run.
    repeat (case_match; try done).
  - by rewrite cancelAllOperations_run.
  - by rewrite handleAllToolCallsComplete_run.
  - rewrite handleToolCallsUpdate_run. unfold state_of.
    by destruct (currentResponse this) eqn:Hres; cbn.
  - by rewrite handleOutputUpdate_run.
  - unfold write, state_of; cbn. by destruct (toolScheduler this).
Qed.

Lemma scheduleToolCalls_confirmation_requests requests abortSignal response
    this res id :
  confirmation_requests res id
    (effects_of (scheduleToolCalls requests abortSignal response this)) = 0.
Proof.
  destruct (toolScheduler this) as [sch|] eqn:H.
  - rewrite scheduleToolCalls_initialized by done.
    unfold effects_of; cbn [snd]. apply confirmation_requests_none.
    apply Forall_app; split; [|by repeat constructor].
    by apply Forall_fmap, Forall_forall.
  - by rewrite scheduleToolCalls_uninitialized.
Qed.

Lemma invoke_confirmation_requests validOutcomes i this res id :
  confirmation_requests res id (effects_of (invoke validOutcomes i this))
  = match i with
    | do_handleToolCallsUpdate tcs =>
        if bool_decide (currentResponse this = Some res
                        ∧ id ∉ sentConfirmationEvents this
                        ∧ id ∈ awaiting_ids tcs)
        then 1 else 0
    | _ => 0
    end.
Proof.
  destruct i; cbn [invoke]; try done.
  - apply scheduleToolCalls_confirmation_requests.
  - apply scheduleToolCalls_confirmation_requests.
  - rewrite handleToolConfirmation_run.
    repeat (case_match; try done).
  - rewrite cancelAllOperations_run. unfold effects_of; cbn [snd].
    apply confirmation_requests_none. constructor; [done|].
    destruct (toolScheduler this) as [sch|]; [|constructor].
    eapply Forall_impl; [apply cancel_live_logs|].
    by intros e [line ->].
  - rewrite handleAllToolCallsComplete_run. unfold effects_of; cbn [snd].
    apply confirmation_requests_none. constructor; [done|].
    apply Forall_app; split.
    + destruct (currentResponse this); [|constructor].
      by apply Forall_fmap, Forall_forall.
    + destruct (toolCompletionCallback this); by repeat constructor.
  - rewrite handleToolCallsUpdate_run. unfold effects_of at 1; cbn [snd].
    change (consoleLog ?l :: ?out) with ([consoleLog l] ++ out).
    rewrite confirmation_requests_app. cbn.
    destruct (currentResponse this) as [r|].
    + rewrite forEach_updateToolCall_confirmations.
      repeat case_bool_decide; try done; exfalso; naive_solver.
    + by rewrite bool_decide_eq_false_2 by (by intros [? _]).
  - rewrite handleOutputUpdate_run. unfold effects_of; cbn [snd].
    by destruct (currentResponse this).
Qed.

(** ** The de-duplication invariant along a run *)

Lemma invoke_budget validOutcomes res id i t t' this :
  tenure_step res t i = Some t' →
  (t ≠ in_use → currentResponse this ≠ Some res) →
  (t' ≠ in_use →
   currentResponse (state_of (invoke validOutcomes i this)) ≠ Some res)
  ∧ (confirmation_requests res id (effects_of (invoke validOutcomes i this))
     + budget res id t' (state_of (invoke validOutcomes i this))
     ≤ budget res id t this)%nat.
Proof.
  intros Hstep Hcur.
  rewrite invoke_currentResponse, invoke_confirmation_requests.
  unfold budget. rewrite invoke_sentConfirmationEvents.
  destruct t, i; cbn in Hstep |- *;
    repeat case_bool_decide; simplify_eq; cbn;
    repeat case_match; simplify_eq;
    repeat case_bool_decide;
    (split; [try naive_solver | try lia; try (exfalso; set_solver)]).
Qed.

Lemma run_budget validOutcomes res id steps : ∀ t this,
  single_tenure res t steps = true →
  (t ≠ in_use → currentResponse this ≠ Some res) →
  (confirmation_requests res id (run validOutcomes steps this).2
   ≤ budget res id t this)%nat.
Proof.
  induction steps as [|i steps IH]; intros t this Hten Hcur.
  - unfold confirmation_requests; cbn. lia.
  - cbn in Hten.
    change (run validOutcomes (i :: steps) this).2
      with (effects_of (invoke validOutcomes i this)
            ++ (run validOutcomes steps
                  (state_of (invoke validOutcomes i this))).2). destruct (tenure_step res t i) as [t'|] eqn:Hstep; [|done].
    destruct (invoke_budget validOutcomes res id i t t' this Hstep Hcur)
      as [Hcur' Hle].
    rewrite confirmation_requests_app.
    specialize (IH t' _ Hten Hcur'). lia.
Qed.

Lemma single_tenure_without_release res steps :
  forallb (λ i, negb (releases i)) steps = true →
  single_tenure res in_use steps = true.
Proof.
  induction steps as [|i steps IH]; [done|].
  cbn. intros [Hi Hsteps]%andb_prop.
  destruct i; cbn in *; try done; try case_bool_decide; auto.
Qed.

(** * The claims *)

(** C1. For every callId at most one confirmation-request event is ever
    emitted on a given output channel: along any run, from an object on
    which the response [res] is not current, in which [res] is not
    recorded again once it was released, the events sent on [res]
    contain at most one confirmation request for [id]; and between two
    releases, from any object, a run puts at most one confirmation
    request for [id] on a channel, and none when [id] is already in the
    de-duplication set.  The mechanism: a status update emits the
    request for [id] exactly when a channel is current, some reported
    call with that callId waits for approval and [id] is not in the set;
    the update leaves every such callId in the set; the two releasing
    methods empty the set and drop the channel, and no other invocation
    removes an entry or drops the channel. *)
Theorem C1_confirmation_request_once validOutcomes :
  (∀ steps this res id,
     currentResponse this ≠ Some res →
     single_tenure res never_current steps = true →
     (confirmation_requests res id (run validOutcomes steps this).2 ≤ 1)%nat)
  ∧ (∀ steps this res id,
       forallb (λ i, negb (releases i)) steps = true →
       (confirmation_requests res id (run validOutcomes steps this).2
        ≤ if bool_decide (id ∈ sentConfirmationEvents this) then 0 else 1)%nat)
  ∧ (∀ tcs this res id,
       confirmation_requests res id
         (effects_of (handleToolCallsUpdate tcs this))
       = (if bool_decide (currentResponse this = Some res
                          ∧ id ∉ sentConfirmationEvents this
                          ∧ id ∈ awaiting_ids tcs)
          then 1 else 0))
  ∧ (∀ tcs this,
       is_Some (currentResponse this) →
       sentConfirmationEvents (state_of (handleToolCallsUpdate tcs this))
       = sentConfirmationEvents this ∪ awaiting_ids tcs)
  ∧ (∀ i this,
       if releases i then
         currentResponse (state_of (invoke validOutcomes i this)) = None
         ∧ sentConfirmationEvents (state_of (invoke validOutcomes i this)) = ∅
       else
         sentConfirmationEvents this
           ⊆ sentConfirmationEvents (state_of (invoke validOutcomes i this))
         ∧ (currentResponse (state_of (invoke validOutcomes i this)) = None →
            currentResponse this = None)).
Proof.
  split; [|split; [|split; [|split]]].
  - intros steps this res id Hcur Hten.
    apply (run_budget validOutcomes res id steps never_current); done.
  - intros steps this res id Hsteps.
    apply (run_budget validOutcomes res id steps in_use); [|done].
    by apply single_tenure_without_release.
  - intros tcs this res id.
    apply (invoke_confirmation_requests validOutcomes
             (do_handleToolCallsUpdate tcs)).
  - intros tcs this [res Hres].
    pose proof (invoke_sentConfirmationEvents validOutcomes
                  (do_handleToolCallsUpdate tcs) this) as Hsent.
    cbn [invoke] in Hsent. by rewrite Hsent, Hres.
  - intros i this.
    rewrite invoke_currentResponse, invoke_sentConfirmationEvents.
    destruct i; cbn; try done; repeat case_match; try done; set_solver.
Qed.

(** The run of [sample_run] reports [b] as waiting three times and puts
    one confirmation request for it on response 7. *)
Lemma C1_confirmation_request_once_witness :
  single_tenure 7 never_current sample_run = true
  ∧ (confirmation_requests 7 "b"
       (run sample_outcomes sample_run new_ToolOrchestrator).2 ≤ 1)%nat.
Proof.
  split; [reflexivity|].
  apply (proj1 (C1_confirmation_request_once sample_outcomes)).
  - discriminate.
  - reflexivity.
Defined.

Example sample_run_confirmations :
  confirmation_requests 7 "b"
    (run sample_outcomes sample_run new_ToolOrchestrator).2 = 1.
Proof. vm_compute. reflexivity. Qed.

(** A response that is recorded again after its release starts a new
    life with an empty set: the tenure hypothesis of the run invariant
    is what makes "a given output channel" one life of a response. *)
Example recorded_again_after_release :
  single_tenure 7 never_current (sample_run ++ sample_run) = false
  ∧ confirmation_requests 7 "b"
      (run sample_outcomes (sample_run ++ sample_run) new_ToolOrchestrator).2
    = 2.
Proof. split; vm_compute; reflexivity. Qed.

Lemma find_call_None id tcs :
  find_call id tcs = None ↔ ∀ tc, tc ∈ tcs → callId (request tc) ≠ id.
Proof.
  unfold find_call. induction tcs as [|tc' tcs IH]; cbn.
  - split; [|done]. intros _ tc Hin. by apply elem_of_nil in Hin.
  - case_bool_decide as Hid.
    + split; [done|]. intros H. destruct (H tc'); [left | done].
    + rewrite IH. split.
      * intros H tc Hin. apply elem_of_cons in Hin as [->|Hin]; auto.
      * intros H tc Hin. apply H. by right.
Qed.

(** C2, as amended.  With the scheduler initialized and a recognized
    outcome, [handleToolConfirmation] ends with the one error "Tool call
    not found or not awaiting approval" both when no live call has the
    callId and when the first live call with the callId is not waiting
    for approval; in both cases the object is unchanged and nothing is
    sent, logged or delegated. *)
Theorem C2_not_found_or_not_awaiting validOutcomes this sch id outcome
    abortSignal :
  toolScheduler this = Some sch →
  outcome ∈ validOutcomes →
  (∀ tc, tc ∈ toolCalls sch → callId (request tc) ≠ id)
  ∨ (∃ tc, find_call id (toolCalls sch) = Some tc
           ∧ status tc ≠ awaiting_approval) →
  handleToolConfirmation validOutcomes id outcome abortSignal this
  = (inl NotFoundOrNotAwaiting, this, []).
Proof.
  intros Hsch Hout Hcall. rewrite handleToolConfirmation_run, Hsch.
  rewrite bool_decide_eq_true_2 by done.
  destruct Hcall as [Habsent | (tc & Hfind & Hst)].
  - apply find_call_None in Habsent. by rewrite Habsent.
  - rewrite Hfind. by rewrite bool_decide_eq_false_2.
Qed.

Lemma C2_not_found_or_not_awaiting_witness :
  handleToolConfirmation sample_outcomes "zz" "cancel" 0 sample_orchestrator
  = (inl NotFoundOrNotAwaiting, sample_orchestrator, [])
  ∧ handleToolConfirmation sample_outcomes "a" "cancel" 0 sample_orchestrator
    = (inl NotFoundOrNotAwaiting, sample_orchestrator, []).
Proof.
  split.
  - apply (C2_not_found_or_not_awaiting sample_outcomes sample_orchestrator
             {| toolCalls := sample_batch |}); [reflexivity | | left].
    + by apply (bool_decide_unpack _).
    + apply Forall_forall. by repeat constructor.
  - apply (C2_not_found_or_not_awaiting sample_outcomes sample_orchestrator
             {| toolCalls := sample_batch |}); [reflexivity | | right].
    + by apply (bool_decide_unpack _).
    + by exists (sample_call "a" "list_dir" executing None).
Defined.

(** C2 as stated fails: in [sample_orchestrator] no live call has callId
    [zz], and the live call [a] exists and is executing; confirming
    either ends with the same error, not with two distinct ones. *)
Lemma C2_counterexample :
  (∀ tc, tc ∈ sample_batch → callId (request tc) ≠ "zz")
  ∧ (∃ tc, tc ∈ sample_batch ∧ callId (request tc) = "a"
           ∧ status tc = executing)
  ∧ ¬ (outcome_of (handleToolConfirmation sample_outcomes "zz" "cancel" 0
                     sample_orchestrator)
       ≠ outcome_of (handleToolConfirmation sample_outcomes "a" "cancel" 0
                       sample_orchestrator)).
Proof.
  split; [|split].
  - apply Forall_forall. by repeat constructor.
  - exists (sample_call "a" "list_dir" executing None).
    split; [|done]. unfold sample_batch. set_solver.
  - intros Hne. by apply Hne.
Qed.

(** ** [cancelAllOperations] *)

Lemma cancel_live_calls tcs : (cancel_live tcs).1 = cancel_call <$> tcs.
Proof.
  induction tcs as [|tc tcs IH]; [done|].
  cbn. unfold cancel_call at 1. destruct (status tc); cbn; by rewrite IH.
Qed.

Lemma cancel_call_fields tc :
  request (cancel_call tc) = request tc
  ∧ confirmationDetails (cancel_call tc) = confirmationDetails tc
  ∧ result (cancel_call tc) = result tc
  ∧ outputChunks (cancel_call tc) = outputChunks tc
  ∧ status (cancel_call tc)
    = match status tc with
      | awaiting_approval | executing => cancelled
      | st => st
      end.
Proof. unfold cancel_call. by destruct (status tc) eqn:Hst. Qed.

Lemma channel_events_logs out :
  Forall (λ e, ∃ line, e = consoleLog line) out → channel_events out = [].
Proof.
  unfold channel_events.
  induction 1 as [|e out [line ->] _ IH]; [done|]. by cbn.
Qed.

(** C3. [cancelAllOperations] walks the scheduler's live calls and leaves
    every call that was waiting for approval or executing with status
    [cancelled], at its place in the array; then the current output
    channel is released and the de-duplication set is empty: the object
    it leaves is the one [clearCurrentResponse] leaves after the walk.
    It never throws and sends nothing on any channel. *)
Theorem C3_cancelAll_cancels_then_releases this :
  outcome_of (cancelAllOperations this) = inr ()
  ∧ (∀ sch, toolScheduler this = Some sch →
       ∃ sch', toolScheduler (state_of (cancelAllOperations this)) = Some sch'
         ∧ length (toolCalls sch') = length (toolCalls sch)
         ∧ (∀ k tc, toolCalls sch !! k = Some tc →
              status tc = awaiting_approval ∨ status tc = executing →
              ∃ tc', toolCalls sch' !! k = Some tc'
                     ∧ status tc' = cancelled
                     ∧ request tc' = request tc)
         ∧ (∀ tc', tc' ∈ toolCalls sch' →
              status tc' ≠ awaiting_approval ∧ status tc' ≠ executing))
  ∧ state_of (cancelAllOperations this)
    = state_of (clearCurrentResponse
                  (set_toolScheduler
                     ((λ sch, {| toolCalls := (cancel_live (toolCalls sch)).1 |})
                        <$> toolScheduler this) this))
  ∧ currentResponse (state_of (cancelAllOperations this)) = None
  ∧ sentConfirmationEvents (state_of (cancelAllOperations this)) = ∅
  ∧ channel_events (effects_of (cancelAllOperations this)) = [].
Proof.
  rewrite cancelAllOperations_run. unfold outcome_of, state_of, effects_of.
  cbn [fst snd].
  split; [done|]. split; [|split; [done|split; [done|split; [done|]]]].
  - intros sch Hsch. rewrite Hsch. cbn.
    eexists; split; [done|]. cbn. rewrite cancel_live_calls.
    split; [by rewrite length_fmap|]. split.
    + intros k tc Hk Hst. exists (cancel_call tc).
      rewrite list_lookup_fmap, Hk. split; [done|].
      destruct (cancel_call_fields tc) as (Hreq & _ & _ & _ & Hstatus).
      rewrite Hstatus. by destruct Hst as [-> | ->].
    + intros tc' Hin. apply list_elem_of_fmap in Hin as (tc & -> & _).
      destruct (cancel_call_fields tc) as (_ & _ & _ & _ & Hstatus).
      rewrite Hstatus. by destruct (status tc).
  - apply channel_events_logs. constructor; [by eexists|].
    destruct (toolScheduler this); [apply cancel_live_logs | constructor].
Qed.

Lemma C3_cancelAll_cancels_then_releases_witness :
  ∃ sch',
    toolScheduler (state_of (cancelAllOperations sample_orchestrator))
    = Some sch'
    ∧ ∃ tc', toolCalls sch' !! 1 = Some tc'
             ∧ status tc' = cancelled
             ∧ request tc' = sample_request "b" "exec" None.
Proof.
  destruct (C3_cancelAll_cancels_then_releases sample_orchestrator)
    as (_ & Hcalls & _).
  destruct (Hcalls {| toolCalls := sample_batch |} eq_refl)
    as (sch' & Hsch' & _ & Hcancelled & _).
  exists sch'. split; [exact Hsch'|].
  apply (Hcancelled 1
           (sample_call "b" "exec" awaiting_approval (Some sample_details))).
  - reflexivity.
  - left. reflexivity.
Defined.

(** C10. [cancelAllOperations] keeps every live call at its place and
    changes nothing but the status of the calls that wait for approval
    or execute: a call in any other status (validating, success, error,
    cancelled) is left exactly as it was, so a validating call stays
    validating; a changed call differs from the old one in its status
    only, which was [awaiting_approval] or [executing] and is now
    [cancelled]. *)
Theorem C10_cancelAll_frame this sch k tc :
  toolScheduler this = Some sch →
  toolCalls sch !! k = Some tc →
  ∃ sch' tc',
    toolScheduler (state_of (cancelAllOperations this)) = Some sch'
    ∧ toolCalls sch' !! k = Some tc'
    ∧ request tc' = request tc
    ∧ confirmationDetails tc' = confirmationDetails tc
    ∧ result tc' = result tc
    ∧ outputChunks tc' = outputChunks tc
    ∧ (status tc ≠ awaiting_approval → status tc ≠ executing → tc' = tc)
    ∧ (status tc = validating → status tc' = validating)
    ∧ (tc' ≠ tc →
       (status tc = awaiting_approval ∨ status tc = executing)
       ∧ status tc' = cancelled).
Proof.
  intros Hsch Hk. rewrite cancelAllOperations_run. unfold state_of. cbn.
  rewrite Hsch. cbn. eexists _, (cancel_call tc).
  split; [done|]. cbn. rewrite cancel_live_calls, list_lookup_fmap, Hk.
  split; [done|].
  destruct (cancel_call_fields tc) as (Hreq & Hdet & Hres & Hchunks & Hstatus).
  repeat (split; [done|]).
  unfold cancel_call in *.
  destruct (status tc) eqn:Hst; repeat split; try done; auto.
Qed.

Lemma C10_cancelAll_frame_witness :
  ∃ sch' tc',
    toolScheduler
      (state_of (cancelAllOperations
                   (set_toolScheduler
                      (Some {| toolCalls :=
                                 [sample_call "v" "read_file" validating None] |})
                      sample_orchestrator))) = Some sch'
    ∧ toolCalls sch' !! 0 = Some tc'
    ∧ tc' = sample_call "v" "read_file" validating None.
Proof.
  destruct (C10_cancelAll_frame
              (set_toolScheduler
                 (Some {| toolCalls :=
                            [sample_call "v" "read_file" validating None] |})
                 sample_orchestrator)
              {| toolCalls := [sample_call "v" "read_file" validating None] |}
              0 (sample_call "v" "read_file" validating None)
              eq_refl eq_refl)
    as (sch' & tc' & Hsch' & Hk & _ & _ & _ & _ & Hsame & _).
  exists sch', tc'. split; [exact Hsch'|]. split; [exact Hk|].
  apply Hsame; discriminate.
Defined.

(** ** Status updates and batch completion *)

Lemma updateToolCall_effects res tc this :
  effects_of (updateToolCall res tc this)
  = match status tc with
    | awaiting_approval =>
        if bool_decide (callId (request tc) ∈ sentConfirmationEvents this)
        then [consoleLog [LogStr "跳过重复的工具确认事件:";
                          LogStr (callId (request tc))]]
        else [consoleLog [LogStr "发送工具确认事件:";
                          LogStr (callId (request tc))];
              sendToolConfirmationEvent res
                (callId (request tc)) (name (request tc))
                (command_of (args (request tc))) (args (request tc))]
    | executing =>
        [sendToolExecutionEvent res (callId (request tc)) "executing"
           ("正在执行 " +:+ name (request tc) +:+ "...")]
    | cancelled =>
        [sendToolExecutionEvent res (callId (request tc)) "failed"
           ("工具调用已取消: " +:+ name (request tc))]
    | error =>
        [sendToolExecutionEvent res (callId (request tc)) "failed"
           ("工具调用失败: " +:+ name (request tc))]
    | validating | success => []
    end.
Proof.
  unfold updateToolCall. destruct (status tc); try done.
  rewrite bind_run. cbn.
  by destruct (bool_decide (callId (request tc) ∈ sentConfirmationEvents this));
    run_M.
Qed.

Lemma updateToolCall_success res tc this :
  status tc = success → updateToolCall res tc this = (inr (), this, []).
Proof. intros Hst. unfold updateToolCall. by rewrite Hst. Qed.

Lemma forEach_updateToolCall_not_success res tcs : ∀ this,
  forEach tcs (updateToolCall res) this
  = forEach (List.filter not_success tcs) (updateToolCall res) this.
Proof.
  induction tcs as [|tc tcs IH]; intros this; [done|].
  cbn [List.filter]. unfold not_success at 1.
  case_bool_decide as Hst; cbn [negb].
  - cbn [forEach]. rewrite bind_run, updateToolCall_success by done.
    cbn. rewrite IH.
    by destruct (forEach _ _ this) as [[r s] out].
  - by rewrite !forEach_updateToolCall_cons, IH.
Qed.

Lemma forEach_updateToolCall_no_result res tcs : ∀ this,
  Forall (λ e, is_result_event e = false)
    (effects_of (forEach tcs (updateToolCall res) this)).
Proof.
  induction tcs as [|tc tcs IH]; intros this; [constructor|].
  rewrite forEach_updateToolCall_cons. unfold effects_of at 1. cbn [snd].
  apply Forall_app; split; [|apply IH].
  rewrite updateToolCall_effects.
  destruct (status tc); repeat case_bool_decide; by repeat constructor.
Qed.

Lemma no_result_events out :
  Forall (λ e, is_result_event e = false) out →
  List.filter is_result_event out = [].
Proof. induction 1 as [|e out He _ IH]; [done|]. cbn. by rewrite He. Qed.

(** C4. In a status update a call whose status is [success] produces
    nothing: the loop body returns at once, and the update of a snapshot
    leaves the object and the events it sends as the update of the
    snapshot without its successful calls does.  No invocation other
    than [handleAllToolCallsComplete] sends a result event.  On batch
    completion with [res] current, the handler sends one result event
    per completed call, in the order of the list, on [res], and after
    them invokes the registered completion callback, if there is one,
    with the whole list. *)
Theorem C4_success_only_on_completion validOutcomes :
  (∀ res tc this,
     status tc = success → updateToolCall res tc this = (inr (), this, []))
  ∧ (∀ tcs this,
       state_of (handleToolCallsUpdate tcs this)
       = state_of (handleToolCallsUpdate (List.filter not_success tcs) this)
       ∧ channel_events (effects_of (handleToolCallsUpdate tcs this))
         = channel_events
             (effects_of
                (handleToolCallsUpdate (List.filter not_success tcs) this)))
  ∧ (∀ i this,
       (∀ completedCalls, i ≠ do_handleAllToolCallsComplete completedCalls) →
       List.filter is_result_event (effects_of (invoke validOutcomes i this))
       = [])
  ∧ (∀ completedCalls this res,
       currentResponse this = Some res →
       handleAllToolCallsComplete completedCalls this
       = (inr (), this,
          consoleLog [LogStr "所有工具调用完成:";
                      LogNum (length completedCalls)]
            :: (sendToolResultEvent res <$> completedCalls)
            ++ match toolCompletionCallback this with
               | Some cb => [invokeCompletionCallback cb completedCalls]
               | None => []
               end)).
Proof.
  split; [|split; [|split]].
  - apply updateToolCall_success.
  - intros tcs this.
    unfold handleToolCallsUpdate. rewrite !bind_run. cbn. rewrite !bind_run. cbn.
    destruct (currentResponse this) as [res|]; [|done].
    by rewrite <- forEach_updateToolCall_not_success.
  - intros i this Hi. apply no_result_events.
    destruct i; cbn [invoke]; try by repeat constructor.
    + unfold scheduleToolCall.
      destruct (toolScheduler this) as [sch|] eqn:H.
      * rewrite scheduleToolCalls_initialized by done. by repeat constructor.
      * rewrite scheduleToolCalls_uninitialized by done. constructor.
    + destruct (toolScheduler this) as [sch|] eqn:H.
      * rewrite scheduleToolCalls_initialized by done.
        unfold effects_of; cbn [snd].
        apply Forall_app; split; [|by repeat constructor].
        by apply Forall_fmap, Forall_forall.
      * rewrite scheduleToolCalls_uninitialized by done. constructor.
    + rewrite handleToolConfirmation_run.
      repeat (case_match; try by repeat constructor).
    + rewrite cancelAllOperations_run. unfold effects_of; cbn [snd].
      constructor; [done|].
      destruct (toolScheduler this); [|constructor].
      eapply Forall_impl; [apply cancel_live_logs|]. by intros e [line ->].
    + by destruct (Hi completedCalls).
    + rewrite handleToolCallsUpdate_run. unfold effects_of at 1; cbn [snd].
      constructor; [done|].
      destruct (currentResponse this);
        [apply forEach_updateToolCall_no_result | constructor].
    + rewrite handleOutputUpdate_run. unfold effects_of; cbn [snd].
      destruct (currentResponse this); by repeat constructor.
  - intros completedCalls this res Hres.
    by rewrite handleAllToolCallsComplete_run, Hres.
Qed.

Lemma C4_success_only_on_completion_witness :
  handleAllToolCallsComplete
    [sample_call "a" "list_dir" success None;
     sample_call "b" "exec" cancelled None]
    sample_orchestrator
  = (inr (), sample_orchestrator,
     [consoleLog [LogStr "所有工具调用完成:"; LogNum 2];
      sendToolResultEvent 7 (sample_call "a" "list_dir" success None);
      sendToolResultEvent 7 (sample_call "b" "exec" cancelled None);
      invokeCompletionCallback 5
        [sample_call "a" "list_dir" success None;
         sample_call "b" "exec" cancelled None]]).
Proof.
  apply (proj2 (proj2 (proj2
           (C4_success_only_on_completion sample_outcomes)))
           [sample_call "a" "list_dir" success None;
            sample_call "b" "exec" cancelled None]
           sample_orchestrator 7).
  reflexivity.
Defined.

(** C5. While no output channel is current, the status-update handler,
    the output-chunk handler and the batch-completion handler send
    nothing on any channel; none of them throws or changes the object
    (the completion callback, when registered, is still invoked). *)
Theorem C5_no_channel_drops_events this :
  currentResponse this = None →
  (∀ tcs,
     outcome_of (handleToolCallsUpdate tcs this) = inr ()
     ∧ state_of (handleToolCallsUpdate tcs this) = this
     ∧ channel_events (effects_of (handleToolCallsUpdate tcs this)) = [])
  ∧ (∀ id outputChunk,
       outcome_of (handleOutputUpdate id outputChunk this) = inr ()
       ∧ state_of (handleOutputUpdate id outputChunk this) = this
       ∧ channel_events (effects_of (handleOutputUpdate id outputChunk this))
         = [])
  ∧ (∀ completedCalls,
       outcome_of (handleAllToolCallsComplete completedCalls this) = inr ()
       ∧ state_of (handleAllToolCallsComplete completedCalls this) = this
       ∧ channel_events
           (effects_of (handleAllToolCallsComplete completedCalls this)) = []).
Proof.
  intros Hnone. split; [|split].
  - intros tcs. by rewrite handleToolCallsUpdate_run, Hnone.
  - intros id outputChunk. by rewrite handleOutputUpdate_run, Hnone.
  - intros completedCalls. rewrite handleAllToolCallsComplete_run, Hnone.
    by destruct (toolCompletionCallback this).
Qed.

Lemma C5_no_channel_drops_events_witness :
  channel_events
    (effects_of (handleToolCallsUpdate sample_batch
                   (set_currentResponse None sample_orchestrator))) = []
  ∧ channel_events
      (effects_of (handleOutputUpdate "a" "file.txt"
                     (set_currentResponse None sample_orchestrator))) = []
  ∧ channel_events
      (effects_of (handleAllToolCallsComplete sample_batch
                     (set_currentResponse None sample_orchestrator))) = [].
Proof.
  destruct (C5_no_channel_drops_events
              (set_currentResponse None sample_orchestrator) eq_refl)
    as (Hupdate & Hchunk & Hcomplete).
  split; [apply Hupdate | split; [apply Hchunk | apply Hcomplete]].
Defined.

(** C6. Before the scheduler is initialized, [scheduleToolCalls] (and
    [scheduleToolCall], which goes through it) and
    [handleToolConfirmation] end, for every input, with the exception
    "Tool scheduler not initialized": the exception is the method's own
    outcome, handed to its caller, and the object is unchanged and
    nothing is sent, logged or delegated. *)
Theorem C6_not_initialized validOutcomes this :
  toolScheduler this = None →
  (∀ requests abortSignal response,
     scheduleToolCalls requests abortSignal response this
     = (inl SchedulerNotInitialized, this, []))
  ∧ (∀ request abortSignal response,
       scheduleToolCall request abortSignal response this
       = (inl SchedulerNotInitialized, this, []))
  ∧ (∀ id outcome abortSignal,
       handleToolConfirmation validOutcomes id outcome abortSignal this
       = (inl SchedulerNotInitialized, this, []))
  ∧ message SchedulerNotInitialized = "Tool scheduler not initialized".
Proof.
  intros Hnone. split; [|split; [|split]].
  - intros. by apply scheduleToolCalls_uninitialized.
  - intros. by apply scheduleToolCalls_uninitialized.
  - intros. by rewrite handleToolConfirmation_run, Hnone.
  - done.
Qed.

Lemma C6_not_initialized_witness :
  scheduleToolCalls [sample_request "a" "list_dir" None] 0 7
    new_ToolOrchestrator
  = (inl SchedulerNotInitialized, new_ToolOrchestrator, [])
  ∧ handleToolConfirmation sample_outcomes "a" "proceedOnce" 0
      new_ToolOrchestrator
    = (inl SchedulerNotInitialized, new_ToolOrchestrator, []).
Proof.
  destruct (C6_not_initialized sample_outcomes new_ToolOrchestrator eq_refl)
    as (Hbatch & _ & Hconfirm & _).
  split; [apply Hbatch | apply Hconfirm].
Defined.

(** C7, as amended.  With the scheduler initialized, an outcome that is
    not a value of the [ToolConfirmationOutcome] enum makes
    [handleToolConfirmation] end with the "Invalid outcome value" error
    whatever the live calls are: nothing is looked up, the object is
    unchanged and nothing is sent, logged or delegated. *)
Theorem C7_invalid_outcome validOutcomes this id outcome abortSignal :
  is_Some (toolScheduler this) →
  outcome ∉ validOutcomes →
  handleToolConfirmation validOutcomes id outcome abortSignal this
  = (inl (InvalidOutcome outcome validOutcomes), this, []).
Proof.
  intros [sch Hsch] Hout. rewrite handleToolConfirmation_run, Hsch.
  by rewrite bool_decide_eq_false_2.
Qed.

Lemma C7_invalid_outcome_witness :
  handleToolConfirmation sample_outcomes "b" "bogus" 0 sample_orchestrator
  = (inl (InvalidOutcome "bogus" sample_outcomes), sample_orchestrator, []).
Proof.
  apply (C7_invalid_outcome sample_outcomes sample_orchestrator).
  - by eexists.
  - by apply (bool_decide_unpack _).
Defined.

(** C7 as stated fails on an orchestrator whose scheduler is not
    initialized: the unrecognized outcome [bogus] is answered by the
    "Tool scheduler not initialized" error, not by an invalid-outcome
    error. *)
Lemma C7_counterexample :
  "bogus" ∉ sample_outcomes
  ∧ handleToolConfirmation sample_outcomes "b" "bogus" 0 new_ToolOrchestrator
    = (inl SchedulerNotInitialized, new_ToolOrchestrator, [])
  ∧ ¬ (∃ outcome validOutcomes,
         outcome_of (handleToolConfirmation sample_outcomes "b" "bogus" 0
                       new_ToolOrchestrator)
         = inl (InvalidOutcome outcome validOutcomes)).
Proof.
  split; [by apply (bool_decide_unpack _)|]. split; [done|].
  by intros (outcome & validOutcomes & H).
Qed.

(** C8. With the scheduler initialized, [scheduleToolCalls] leaves
    [response] as the current channel, and what it does outwards is, in
    this order: one "tool call" event on [response] per request, in
    request order, carrying the request's callId, name and args, and
    last the scheduler's [schedule] on the whole batch.  The events are
    those of the loop run on the object in which [response] is already
    recorded. *)
Theorem C8_scheduleToolCalls_order requests abortSignal response this :
  is_Some (toolScheduler this) →
  scheduleToolCalls requests abortSignal response this
  = (inr (), set_currentResponse (Some response) this,
     ((λ request, sendToolCallEvent response
                    (callId request) (name request) (args request))
        <$> requests)
     ++ [schedule requests abortSignal])
  ∧ currentResponse
      (state_of (scheduleToolCalls requests abortSignal response this))
    = Some response
  ∧ effects_of (scheduleToolCalls requests abortSignal response this)
    = effects_of
        (forEach requests
           (λ request, call (sendToolCallEvent response
                               (callId request) (name request) (args request)))
           (set_currentResponse (Some response) this))
      ++ [schedule requests abortSignal]
  ∧ (∀ k request,
       requests !! k = Some request →
       effects_of (scheduleToolCalls requests abortSignal response this) !! k
       = Some (sendToolCallEvent response
                 (callId request) (name request) (args request)))
  ∧ effects_of (scheduleToolCalls requests abortSignal response this)
      !! length requests
    = Some (schedule requests abortSignal).
Proof.
  intros Hinit. rewrite scheduleToolCalls_initialized by done.
  unfold state_of, effects_of. cbn [fst snd].
  split; [done|]. split; [done|]. split; [by rewrite forEach_call|]. split.
  - intros k request Hk.
    rewrite lookup_app_l by (rewrite length_fmap; by eapply lookup_lt_Some).
    by rewrite list_lookup_fmap, Hk.
  - rewrite lookup_app_r by (by rewrite length_fmap).
    by rewrite length_fmap, Nat.sub_diag.
Qed.

Lemma C8_scheduleToolCalls_order_witness :
  scheduleToolCalls
    [sample_request "a" "list_dir" None;
     sample_request "b" "exec" (Some {["command" := JsString "rm -rf /"]})]
    0 9 sample_orchestrator
  = (inr (), set_currentResponse (Some 9) sample_orchestrator,
     [sendToolCallEvent 9 "a" "list_dir" None;
      sendToolCallEvent 9 "b" "exec"
        (Some {["command" := JsString "rm -rf /"]});
      schedule
        [sample_request "a" "list_dir" None;
         sample_request "b" "exec"
           (Some {["command" := JsString "rm -rf /"]})] 0]).
Proof.
  apply (C8_scheduleToolCalls_order
           [sample_request "a" "list_dir" None;
            sample_request "b" "exec"
              (Some {["command" := JsString "rm -rf /"]})]
           0 9 sample_orchestrator).
  by eexists.
Defined.

(** C9. [scheduleToolCall request signal response] is
    [scheduleToolCalls] on the one-element list [request]: same outcome,
    same object, same calls outwards, in every state; explicitly, the
    "not initialized" exception before initialization and, after it, the
    channel recorded, one "tool call" event and [schedule] on the
    singleton.  In a run the two invocations are interchangeable. *)
Theorem C9_scheduleToolCall_is_singleton_batch validOutcomes request
    abortSignal response this :
  scheduleToolCall request abortSignal response this
  = scheduleToolCalls [request] abortSignal response this
  ∧ invoke validOutcomes (do_scheduleToolCall request abortSignal response) this
    = invoke validOutcomes
        (do_scheduleToolCalls [request] abortSignal response) this
  ∧ scheduleToolCall request abortSignal response this
    = match toolScheduler this with
      | None => (inl SchedulerNotInitialized, this, [])
      | Some _ =>
          (inr (), set_currentResponse (Some response) this,
           [sendToolCallEvent response
              (callId request) (name request) (args request);
            schedule [request] abortSignal])
      end.
Proof.
  split; [done|]. split; [done|].
  unfold scheduleToolCall.
  destruct (toolScheduler this) as [sch|] eqn:Hsch.
  - by rewrite scheduleToolCalls_initialized.
  - by rewrite scheduleToolCalls_uninitialized.
Qed.

(** * Further properties of the orchestrator *)

(** ** Confirmation *)





(** ** Cancellation *)

Lemma cancel_live_cancelled tcs :
  cancel_live (cancel_call <$> tcs) = (cancel_call <$> tcs, []).
Proof.
  induction tcs as [|tc tcs IH]; [done|].
  rewrite fmap_cons. cbn [cancel_live]. rewrite IH. cbn [fst snd].
  destruct (cancel_call_fields tc) as (_ & _ & _ & _ & Hst).
  rewrite Hst. by destruct (status tc).
Qed.

(** X3. Cancelling twice is cancelling once: a second
    [cancelAllOperations] right after the first leaves the orchestrator
    and the scheduler's live calls as the first left them, and logs its
    headline only, no call being left to cancel. *)
Theorem cancelAllOperations_idempotent this :
  cancelAllOperations (state_of (cancelAllOperations this))
  = (inr (), state_of (cancelAllOperations this),
     [consoleLog [LogStr "ToolOrchestrator: 取消所有操作"]]).
Proof.
  rewrite !cancelAllOperations_run. unfold state_of.
  cbn [fst snd toolScheduler toolCompletionCallback].
  destruct (toolScheduler this) as [sch|];
    cbn [fmap option_fmap option_map toolCalls]; [|done].
  by rewrite (cancel_live_calls (toolCalls sch)), !cancel_live_cancelled.
Qed.

Lemma find_call_cancelled id tcs tc :
  find_call id (cancel_call <$> tcs) = Some tc →
  status tc ≠ awaiting_approval.
Proof.
  unfold find_call. intros Hfind. apply List.find_some in Hfind as [Hin _].
  apply list_elem_of_In, list_elem_of_fmap in Hin as (tc' & -> & _).
  destruct (cancel_call_fields tc') as (_ & _ & _ & _ & Hst).
  rewrite Hst. by destruct (status tc').
Qed.

(** X4. After [cancelAllOperations] no call can be confirmed: whatever
    the callId, the outcome and the earlier state, a
    [handleToolConfirmation] that follows it ends with an exception and
    calls nothing on the scheduler; with the scheduler initialized and a
    recognized outcome the exception is "Tool call not found or not
    awaiting approval". *)
Theorem no_confirmation_after_cancelAll validOutcomes id outcome abortSignal
    this :
  (∃ e, handleToolConfirmation validOutcomes id outcome abortSignal
          (state_of (cancelAllOperations this))
        = (inl e, state_of (cancelAllOperations this), []))
  ∧ (is_Some (toolScheduler this) → outcome ∈ validOutcomes →
     outcome_of (handleToolConfirmation validOutcomes id outcome abortSignal
                   (state_of (cancelAllOperations this)))
     = inl NotFoundOrNotAwaiting).
Proof.
  rewrite handleToolConfirmation_run, cancelAllOperations_run.
  unfold state_of, outcome_of. cbn [fst snd toolScheduler].
  destruct (toolScheduler this) as [sch|]; cbn [fmap option_fmap option_map].
  - cbn [toolCalls]. rewrite cancel_live_calls.
    destruct (find_call id (cancel_call <$> toolCalls sch)) as [tc|] eqn:Hfind.
    + apply find_call_cancelled in Hfind.
      rewrite (bool_decide_eq_false_2 _ Hfind).
      split.
      * case_bool_decide; eauto.
      * intros _ Hout. by rewrite bool_decide_eq_true_2.
    + split.
      * case_bool_decide; eauto.
      * intros _ Hout. by rewrite bool_decide_eq_true_2.
  - split; [eauto|]. by intros [? ?].
Qed.

Lemma no_confirmation_after_cancelAll_witness :
  outcome_of (handleToolConfirmation sample_outcomes "b" "proceedOnce" 3
                (state_of (cancelAllOperations sample_orchestrator)))
  = inl NotFoundOrNotAwaiting.
Proof.
  apply (proj2 (no_confirmation_after_cancelAll sample_outcomes "b"
                  "proceedOnce" 3 sample_orchestrator)).
  - by eexists.
  - by apply (bool_decide_unpack _).
Defined.

(** ** Initialization *)

Lemma invoke_toolScheduler validOutcomes i this :
  is_Some (toolScheduler this) →
  is_Some (toolScheduler (state_of (invoke validOutcomes i this))).
Proof.
  intros [sch Hsch].
  destruct i; cbn [invoke]; try (by eexists).
  - unfold scheduleToolCall.
    rewrite scheduleToolCalls_initialized by (by eexists). by eexists.
  - rewrite scheduleToolCalls_initialized by (by eexists). by eexists.
  - rewrite handleToolConfirmation_run, Hsch.
    repeat (case_match; try (by eexists)).
  - rewrite cancelAllOperations_run. unfold state_of. cbn.
    rewrite Hsch. by eexists.
  - rewrite handleAllToolCallsComplete_run. by eexists.
  - rewrite handleToolCallsUpdate_run. unfold state_of.
    destruct (currentResponse this); by eexists.
  - rewrite handleOutputUpdate_run. by eexists.
  - unfold write, state_of. cbn. rewrite Hsch. by eexists.
Qed.

(** X5. No method of the orchestrator forgets the scheduler: once
    initialized it stays initialized along every run, so after any run
    that starts initialized a batch can be scheduled without the "not
    initialized" exception. *)
Theorem scheduler_stays_initialized validOutcomes steps : ∀ this,
  is_Some (toolScheduler this) →
  is_Some (toolScheduler (run validOutcomes steps this).1)
  ∧ ∀ requests abortSignal response,
      outcome_of (scheduleToolCalls requests abortSignal response
                    (run validOutcomes steps this).1) = inr ().
Proof.
  assert (∀ this, is_Some (toolScheduler this) →
            is_Some (toolScheduler (run validOutcomes steps this).1)) as Hrun.
  { induction steps as [|i steps IH]; intros this Hinit; [done|].
    cbn. apply IH. by apply invoke_toolScheduler. }
  intros this Hinit. split; [by apply Hrun|].
  intros. rewrite scheduleToolCalls_initialized; [done | by apply Hrun].
Qed.

Lemma scheduler_stays_initialized_witness :
  is_Some (toolScheduler
             (run sample_outcomes (sample_run ++ sample_run)
                sample_orchestrator).1).
Proof.
  apply (scheduler_stays_initialized sample_outcomes
           (sample_run ++ sample_run) sample_orchestrator).
  by eexists.
Defined.

(** ** Which channel is written to *)

Lemma forEach_updateToolCall_channel res tcs : ∀ this,
  Forall (λ e, ∀ r, channel_of e = Some r → r = res)
    (effects_of (forEach tcs (updateToolCall res) this)).
Proof.
  induction tcs as [|tc tcs IH]; intros this; [constructor|].
  rewrite forEach_updateToolCall_cons. unfold effects_of at 1. cbn [snd].
  apply Forall_app; split; [|apply IH].
  rewrite updateToolCall_effects.
  destruct (status tc); repeat case_bool_decide;
    repeat constructor; cbn; congruence.
Qed.

Lemma invoke_channel validOutcomes i this :
  Forall (λ e, ∀ r, channel_of e = Some r →
                currentResponse this = Some r ∨ recorded_by i = Some r)
    (effects_of (invoke validOutcomes i this)).
Proof.
  assert (∀ requests abortSignal response,
    Forall (λ e, ∀ r, channel_of e = Some r →
                  currentResponse this = Some r ∨ Some response = Some r)
      (effects_of (scheduleToolCalls requests abortSignal response this)))
    as Hschedule.
  { intros requests abortSignal response.
    destruct (toolScheduler this) as [sch|] eqn:H.
    - rewrite scheduleToolCalls_initialized by done.
      unfold effects_of; cbn [snd].
      apply Forall_app; split; [|by repeat constructor].
      apply Forall_fmap, Forall_forall. intros request _ r; cbn. auto.
    - rewrite scheduleToolCalls_uninitialized by done. constructor. }
  destruct i; cbn [invoke recorded_by];
    try apply Hschedule; try by repeat constructor.
  - rewrite handleToolConfirmation_run.
    repeat (case_match; try by repeat constructor).
  - rewrite cancelAllOperations_run. unfold effects_of; cbn [snd].
    constructor; [done|].
    destruct (toolScheduler this); [|constructor].
    eapply Forall_impl; [apply cancel_live_logs|]. by intros e [line ->].
  - rewrite handleAllToolCallsComplete_run. unfold effects_of; cbn [snd].
    constructor; [done|]. apply Forall_app; split.
    + destruct (currentResponse this) as [res|]; [|constructor].
      apply Forall_fmap, Forall_forall. intros tc _ r; cbn. auto.
    + destruct (toolCompletionCallback this); by repeat constructor.
  - rewrite handleToolCallsUpdate_run. unfold effects_of at 1; cbn [snd].
    constructor; [done|].
    destruct (currentResponse this) as [res|]; [|constructor].
    eapply Forall_impl; [apply forEach_updateToolCall_channel|].
    intros e He r Hr. left. f_equal. symmetry. by apply He.
  - rewrite handleOutputUpdate_run. unfold effects_of; cbn [snd].
    constructor; [done|].
    destruct (currentResponse this) as [res|]; [|constructor].
    constructor; [|constructor]. intros r Hr. by left.
Qed.

Lemma invoke_currentResponse_origin validOutcomes i this r :
  currentResponse (state_of (invoke validOutcomes i this)) = Some r →
  currentResponse this = Some r ∨ recorded_by i = Some r.
Proof.
  rewrite invoke_currentResponse.
  destruct i; cbn; try done; try (by left); case_match; auto.
Qed.

Lemma run_channel validOutcomes steps : ∀ this,
  Forall (λ e, ∀ r, channel_of e = Some r →
                currentResponse this = Some r
                ∨ ∃ i, i ∈ steps ∧ recorded_by i = Some r)
    (run validOutcomes steps this).2.
Proof.
  induction steps as [|i steps IH]; intros this; [constructor|].
  cbn. apply Forall_app; split.
  - eapply Forall_impl; [apply invoke_channel|].
    intros e He r Hr. destruct (He r Hr) as [?|?]; [by left|].
    right. exists i. split; [left | done].
  - eapply Forall_impl; [apply IH|].
    intros e He r Hr. destruct (He r Hr) as [Hcur|(i' & Hin & Hrec)].
    + apply invoke_currentResponse_origin in Hcur as [?|?]; [by left|].
      right. exists i. split; [left | done].
    + right. exists i'. split; [by right | done].
Qed.

(** X6. The orchestrator writes only to responses it was given: every
    event of a run is sent on the response that was current when the
    run began or on a response handed over by a [scheduleToolCall] or
    [scheduleToolCalls] of the run. *)
Theorem events_only_on_recorded_responses validOutcomes steps this e r :
  e ∈ (run validOutcomes steps this).2 →
  channel_of e = Some r →
  currentResponse this = Some r
  ∨ ∃ i, i ∈ steps ∧ recorded_by i = Some r.
Proof.
  intros Hin Hr.
  pose proof (run_channel validOutcomes steps this) as Hall.
  rewrite Forall_forall in Hall. by apply (Hall e).
Qed.

Lemma events_only_on_recorded_responses_witness :
  currentResponse new_ToolOrchestrator = Some 7
  ∨ ∃ i, i ∈ sample_run ∧ recorded_by i = Some 7.
Proof.
  apply (events_only_on_recorded_responses sample_outcomes sample_run
           new_ToolOrchestrator
           (sendToolCallEvent 7 "a" "list_dir" None) 7).
  - vm_compute. apply list_elem_of_here.
  - reflexivity.
Defined.

(** X7. Once the channel is released the orchestrator is silent until a
    new batch is scheduled: from an object with no current response, a
    run without [scheduleToolCall] and [scheduleToolCalls] sends no
    event at all, whatever the scheduler reports meanwhile. *)
Theorem silent_until_next_batch validOutcomes steps this :
  currentResponse this = None →
  Forall (λ i, recorded_by i = None) steps →
  channel_events (run validOutcomes steps this).2 = [].
Proof.
  intros Hnone Hsteps.
  pose proof (run_channel validOutcomes steps this) as Hall.
  unfold channel_events.
  induction Hall as [|e out He _ IH]; [done|].
  cbn. rewrite IH. case_bool_decide as Hch; [|done].
  destruct Hch as [r Hr]. destruct (He r Hr) as [?|(i & Hin & Hrec)].
  - congruence.
  - rewrite Forall_forall in Hsteps. rewrite (Hsteps i Hin) in Hrec. done.
Qed.

Lemma silent_until_next_batch_witness :
  channel_events
    (run sample_outcomes
       [do_handleToolCallsUpdate sample_batch;
        do_handleOutputUpdate "a" "file.txt";
        do_handleAllToolCallsComplete sample_batch]
       (state_of (cancelAllOperations sample_orchestrator))).2 = [].
Proof.
  apply (silent_until_next_batch sample_outcomes).
  - reflexivity.
  - by repeat constructor.
Defined.

(** ** Progress events of a status update *)

Lemma forEach_updateToolCall_execution res tcs : ∀ this,
  List.filter is_execution_event
    (effects_of (forEach tcs (updateToolCall res) this))
  = (λ tc, sendToolExecutionEvent res (callId (request tc))
             (match status tc with executing => "executing" | _ => "failed" end)
             (match status tc with
              | executing => "正在执行 " +:+ name (request tc) +:+ "..."
              | cancelled => "工具调用已取消: " +:+ name (request tc)
              | _ => "工具调用失败: " +:+ name (request tc)
              end))
    <$> List.filter reported_as_execution tcs.
Proof.
  induction tcs as [|tc tcs IH]; intros this; [done|].
  rewrite forEach_updateToolCall_cons. unfold effects_of at 1. cbn [snd].
  rewrite List.filter_app, IH, updateToolCall_effects.
  cbn [List.filter]. unfold reported_as_execution at 2.
  destruct (status tc) eqn:Hst; cbn; rewrite ?Hst; try done.
  by case_bool_decide.
Qed.

(** X8. With [res] current, the execution events of a status update are
    exactly one per reported call that is executing, cancelled or
    failed, in the order of the snapshot and all on [res]: "executing"
    for an executing call, "failed" for a cancelled or failed one, each
    with the message that names the tool.  Calls that are validating,
    successful or waiting for approval add none, and the de-duplication
    set plays no part. *)
Theorem update_execution_events tcs this res :
  currentResponse this = Some res →
  List.filter is_execution_event (effects_of (handleToolCallsUpdate tcs this))
  = (λ tc, sendToolExecutionEvent res (callId (request tc))
             (match status tc with executing => "executing" | _ => "failed" end)
             (match status tc with
              | executing => "正在执行 " +:+ name (request tc) +:+ "..."
              | cancelled => "工具调用已取消: " +:+ name (request tc)
              | _ => "工具调用失败: " +:+ name (request tc)
              end))
    <$> List.filter reported_as_execution tcs.
Proof.
  intros Hres. rewrite handleToolCallsUpdate_run, Hres.
  unfold effects_of at 1. cbn [snd List.filter is_execution_event].
  apply forEach_updateToolCall_execution.
Qed.

Lemma update_execution_events_witness :
  List.filter is_execution_event
    (effects_of (handleToolCallsUpdate
                   (sample_call "c" "write_file" cancelled None :: sample_batch)
                   sample_orchestrator))
  = [sendToolExecutionEvent 7 "c" "failed" "工具调用已取消: write_file";
     sendToolExecutionEvent 7 "a" "executing" "正在执行 list_dir..."].
Proof.
  apply (update_execution_events
           (sample_call "c" "write_file" cancelled None :: sample_batch)
           sample_orchestrator 7).
  reflexivity.
Defined.

(** ** What the de-duplication set holds *)

Lemma confirmed_ids_app out1 out2 :
  confirmed_ids (out1 ++ out2) = confirmed_ids out1 ∪ confirmed_ids out2.
Proof.
  unfold confirmed_ids. rewrite omap_app, list_to_set_app_L. done.
Qed.

Lemma confirmed_ids_none out :
  Forall (λ e, ∀ res id, is_confirmation_request res id e = false) out →
  confirmed_ids out = ∅.
Proof.
  unfold confirmed_ids. induction 1 as [|e out He _ IH]; [done|].
  cbn. destruct e; try done.
  specialize (He res id). cbn in He.
  by rewrite !bool_decide_eq_true_2 in He.
Qed.

Lemma forEach_updateToolCall_confirmed res tcs : ∀ this,
  confirmed_ids (effects_of (forEach tcs (updateToolCall res) this))
  = awaiting_ids tcs ∖ sentConfirmationEvents this.
Proof.
  induction tcs as [|tc tcs IH]; intros this.
  - cbn. unfold confirmed_ids, awaiting_ids. cbn. set_solver.
  - rewrite forEach_updateToolCall_cons. unfold effects_of at 1. cbn [snd].
    rewrite confirmed_ids_app, IH, updateToolCall_state, awaiting_ids_cons,
      updateToolCall_effects.
    destruct this as [sch cur cb sent]. cbn.
    destruct (status tc); cbn; try (unfold confirmed_ids; cbn; set_solver).
    case_bool_decide as Hin; unfold confirmed_ids; cbn;
      apply set_eq; intros x;
      destruct (decide (x = callId (request tc))) as [->|Hx]; set_solver.
Qed.

Lemma scheduleToolCalls_confirmed_ids requests abortSignal response this :
  confirmed_ids
    (effects_of (scheduleToolCalls requests abortSignal response this)) = ∅.
Proof.
  apply confirmed_ids_none.
  destruct (toolScheduler this) as [sch|] eqn:H.
  - rewrite scheduleToolCalls_initialized by done.
    unfold effects_of; cbn [snd].
    apply Forall_app; split; [|by repeat constructor].
    by apply Forall_fmap, Forall_forall.
  - rewrite scheduleToolCalls_uninitialized by done. constructor.
Qed.

Lemma invoke_confirmed_ids validOutcomes i this :
  releases i = false →
  sentConfirmationEvents (state_of (invoke validOutcomes i this))
  = sentConfirmationEvents this
    ∪ confirmed_ids (effects_of (invoke validOutcomes i this)).
Proof.
  intros Hrel. rewrite invoke_sentConfirmationEvents.
  destruct i; try done; cbn [invoke].
  - cbn. set_solver.
  - cbn. set_solver.
  - unfold scheduleToolCall.
    rewrite scheduleToolCalls_confirmed_ids. set_solver.
  - rewrite scheduleToolCalls_confirmed_ids. set_solver.
  - rewrite handleToolConfirmation_run.
    repeat (case_match; try (unfold confirmed_ids; cbn; set_solver)).
  - rewrite handleAllToolCallsComplete_run. unfold effects_of. cbn [snd].
    rewrite confirmed_ids_none; [set_solver|].
    constructor; [done|]. apply Forall_app; split.
    + destruct (currentResponse this); [|constructor].
      by apply Forall_fmap, Forall_forall.
    + destruct (toolCompletionCallback this); by repeat constructor.
  - rewrite handleToolCallsUpdate_run. unfold effects_of at 1. cbn [snd].
    change (consoleLog ?l :: ?out) with ([consoleLog l] ++ out).
    rewrite confirmed_ids_app.
    destruct (currentResponse this) as [res|].
    + rewrite forEach_updateToolCall_confirmed.
      unfold confirmed_ids at 1. cbn.
      apply set_eq. intros x.
      destruct (decide (x ∈ sentConfirmationEvents this)); set_solver.
    + unfold confirmed_ids. cbn. set_solver.
  - rewrite handleOutputUpdate_run. unfold effects_of. cbn [snd].
    destruct (currentResponse this); unfold confirmed_ids; cbn; set_solver.
  - cbn. set_solver.
Qed.

(** X9. Between two releases the de-duplication set is an exact record
    of what was sent: after a run without [clearCurrentResponse] and
    [cancelAllOperations] it holds the callIds it held before together
    with the callIds for which the run sent a confirmation request, and
    nothing else; no callId is suppressed that was not announced. *)
Theorem dedup_set_records_requests validOutcomes steps : ∀ this,
  forallb (λ i, negb (releases i)) steps = true →
  sentConfirmationEvents (run validOutcomes steps this).1
  = sentConfirmationEvents this
    ∪ confirmed_ids (run validOutcomes steps this).2.
Proof.
  induction steps as [|i steps IH]; intros this Hsteps.
  - cbn. unfold confirmed_ids. cbn. set_solver.
  - cbn in Hsteps. apply andb_prop in Hsteps as [Hi Hsteps].
    apply negb_true_iff in Hi.
    change (run validOutcomes (i :: steps) this).2
      with (effects_of (invoke validOutcomes i this)
            ++ (run validOutcomes steps
                  (state_of (invoke validOutcomes i this))).2).
    change (run validOutcomes (i :: steps) this).1
      with (run validOutcomes steps
              (state_of (invoke validOutcomes i this))).1.
    rewrite confirmed_ids_app, IH by done.
    rewrite invoke_confirmed_ids by done. set_solver.
Qed.

Lemma dedup_set_records_requests_witness :
  sentConfirmationEvents
    (run sample_outcomes
       [do_handleToolCallsUpdate sample_batch;
        do_handleToolCallsUpdate sample_batch] sample_orchestrator).1
  = sentConfirmationEvents sample_orchestrator
    ∪ confirmed_ids
        (run sample_outcomes
           [do_handleToolCallsUpdate sample_batch;
            do_handleToolCallsUpdate sample_batch] sample_orchestrator).2.
Proof.
  apply (dedup_set_records_requests sample_outcomes).
  reflexivity.
Defined.

(** ** The completion callback *)

(** X10. The callback that [handleAllToolCallsComplete] invokes is the
    one registered last: after [setToolCompletionCallback callback] the
    handler calls [callback] exactly once with the whole list of
    completed calls, whether or not a response is current and whatever
    was registered before; the registration itself sends nothing. *)
Theorem completion_invokes_latest_callback callback completedCalls this :
  effects_of (setToolCompletionCallback callback this) = []
  ∧ List.filter is_completion_callback
      (effects_of (handleAllToolCallsComplete completedCalls
                     (state_of (setToolCompletionCallback callback this))))
    = [invokeCompletionCallback callback completedCalls]
  ∧ state_of (handleAllToolCallsComplete completedCalls
                (state_of (setToolCompletionCallback callback this)))
    = set_toolCompletionCallback (Some callback) this.
Proof.
  split; [done|].
  rewrite handleAllToolCallsComplete_run.
  unfold state_of, effects_of. cbn [fst snd]. split; [|done].
  cbn. rewrite List.filter_app. cbn.
  destruct (currentResponse this) as [res|]; [|done].
  assert (List.filter is_completion_callback
            (sendToolResultEvent res <$> completedCalls) = []) as ->; [|done].
  by induction completedCalls as [|tc tcs IH].
Qed.

(** * Properties of the response bodies *)

Lemma success_fields now data message :
  prop "code" (ResponseFactory.success now data message) = VNumber 200
  ∧ prop "message" (ResponseFactory.success now data message)
    = VString (default "操作成功" message)
  ∧ prop "data" (ResponseFactory.success now data message) = data
  ∧ prop "timestamp" (ResponseFactory.success now data message) = VString now.
Proof. done. Qed.

Lemma errorWithCode_fields codes now errorCode customMessage :
  prop "code" (ResponseFactory.errorWithCode codes now errorCode customMessage)
  = VNumber (ERROR_TO_HTTP_STATUS codes errorCode)
  ∧ typeof (prop "message" (ResponseFactory.errorWithCode codes now errorCode customMessage))
    = "string"
  ∧ prop "timestamp" (ResponseFactory.errorWithCode codes now errorCode customMessage)
    = VString now.
Proof. done. Qed.

(** X11. What the factory builds, the validator accepts.  A [success]
    response is a success response and not an error response; an
    [error] or [errorWithCode] response is always a base response, and
    it is an error response exactly when its status code is not 200:
    [error] called with status 200, or a table that maps the code to
    200, yields a body that validates as a success. *)
Theorem factory_responses_validate codes now :
  (∀ data message,
     ResponseValidator.validateSuccessResponse (ResponseFactory.success now data message) = true
     ∧ ResponseValidator.validateErrorResponse (ResponseFactory.success now data message)
       = false)
  ∧ (∀ message statusCode,
       ResponseValidator.validateBaseResponse (ResponseFactory.error now message statusCode)
       = true
       ∧ ResponseValidator.validateErrorResponse (ResponseFactory.error now message statusCode)
         = negb (bool_decide (default 500%Z statusCode = 200%Z))
       ∧ ResponseValidator.validateSuccessResponse
           (ResponseFactory.error now message statusCode)
         = bool_decide (default 500%Z statusCode = 200%Z))
  ∧ (∀ errorCode customMessage,
       ResponseValidator.validateBaseResponse (ResponseFactory.errorWithCode codes now errorCode customMessage)
       = true
       ∧ ResponseValidator.validateErrorResponse
           (ResponseFactory.errorWithCode codes now errorCode customMessage)
         = negb (bool_decide (ERROR_TO_HTTP_STATUS codes errorCode = 200%Z))).
Proof.
  split; [|split].
  - done.
  - intros message statusCode.
    unfold ResponseValidator.validateErrorResponse, ResponseValidator.validateSuccessResponse. cbn.
    by rewrite andb_true_r.
  - intros errorCode customMessage.
    unfold ResponseValidator.validateErrorResponse. cbn. by rewrite andb_true_r.
Qed.

(** X12. The two specific validators split the base responses: no value
    is both a success and an error response, and a value is a base
    response exactly when it is one of the two. *)
Theorem validators_partition response :
  ResponseValidator.validateBaseResponse response
  = xorb (ResponseValidator.validateSuccessResponse response) (ResponseValidator.validateErrorResponse response)
  ∧ ResponseValidator.validateSuccessResponse response && ResponseValidator.validateErrorResponse response = false.
Proof.
  unfold ResponseValidator.validateErrorResponse, ResponseValidator.validateSuccessResponse, ResponseValidator.validateBaseResponse.
  destruct response as [| | | | |props|]; try done.
  cbn [typeof]. rewrite bool_decide_eq_true_2 by done. cbn [andb negb].
  destruct (bool_decide (typeof (prop "code" (VObject props)) = "number"));
    [|done].
  destruct (bool_decide (typeof (prop "message" (VObject props)) = "string"));
    [|done].
  destruct (bool_decide (typeof (prop "timestamp" (VObject props)) = "string"));
    [|done].
  by destruct (is_number 200 (prop "code" (VObject props))).
Qed.

(** X13. [normalizeResponse] always returns a base response, whatever it
    is given; a value that already is one is returned as it is, so
    normalizing twice, even at a later time, is normalizing once.  Hence
    the [json] that [responseStandardizationMiddleware] installs hands a
    base response to the original [json], whatever the handler sends. *)
Theorem normalizeResponse_valid_idempotent codes now now' response :
  ResponseValidator.validateBaseResponse
    (ResponseValidator.normalizeResponse codes now response) = true
  ∧ (ResponseValidator.validateBaseResponse response = true →
     ResponseValidator.normalizeResponse codes now response = response)
  ∧ ResponseValidator.normalizeResponse codes now'
      (ResponseValidator.normalizeResponse codes now response)
    = ResponseValidator.normalizeResponse codes now response
  ∧ responseStandardizationMiddleware codes now
      ResponseValidator.validateBaseResponse response = true.
Proof.
  assert (ResponseValidator.validateBaseResponse
            (ResponseValidator.normalizeResponse codes now response) = true)
    as Hvalid.
  { unfold ResponseValidator.normalizeResponse.
    destruct (ResponseValidator.validateBaseResponse response) eqn:Hbase;
      [done|].
    case_bool_decide; [done|]. by destruct response. }
  split; [done|]. split; [|split; [|done]].
  - intros Hbase. unfold ResponseValidator.normalizeResponse. by rewrite Hbase.
  - unfold ResponseValidator.normalizeResponse at 1. by rewrite Hvalid.
Qed.

Lemma normalizeResponse_valid_idempotent_witness :
  ResponseValidator.normalizeResponse sample_codes sample_now
    (ResponseFactory.notFoundError sample_now "workspace")
  = ResponseFactory.notFoundError sample_now "workspace".
Proof.
  apply (proj1 (proj2 (normalizeResponse_valid_idempotent
                         sample_codes sample_now sample_now
                         (ResponseFactory.notFoundError sample_now
                            "workspace")))).
  reflexivity.
Defined.

(** X14. An object that is not a base response is wrapped as a success:
    the result has code 200 and the default message, and its [data]
    holds every property of the object other than [message] and [error]
    unchanged, [message] exactly when it is truthy and [error] exactly
    when it is truthy.  So a body that only carries an [error] is
    answered with code 200, and an empty or missing [message] is
    dropped. *)
Theorem normalizeResponse_wraps_object codes now props :
  ResponseValidator.validateBaseResponse (VObject props) = false →
  prop "code" (ResponseValidator.normalizeResponse codes now (VObject props)) = VNumber 200
  ∧ prop "message" (ResponseValidator.normalizeResponse codes now (VObject props))
    = VString "操作成功"
  ∧ ∃ data,
      prop "data" (ResponseValidator.normalizeResponse codes now (VObject props)) = VObject data
      ∧ (∀ k, k ≠ "message" → k ≠ "error" → data !! k = props !! k)
      ∧ data !! "message"
        = (if truthy (prop "message" (VObject props))
           then props !! "message" else None)
      ∧ data !! "error"
        = (if truthy (prop "error" (VObject props))
           then props !! "error" else None).
Proof.
  intros Hbase. unfold ResponseValidator.normalizeResponse. rewrite Hbase.
  cbn [typeof]. rewrite bool_decide_eq_false_2 by done.
  split; [done|]. split; [done|]. eexists. split; [done|].
  unfold spread_if_truthy, prop.
  destruct (props !! "message") as [m|] eqn:Hm;
    destruct (props !! "error") as [e|] eqn:He; cbn [default];
    repeat split; try intros k Hk1 Hk2;
    repeat case_match; simplify_map_eq; done.
Qed.

Lemma normalizeResponse_wraps_object_witness :
  prop "code"
    (ResponseValidator.normalizeResponse sample_codes sample_now
       (VObject {["error" := VString "boom"]})) = VNumber 200.
Proof.
  apply (normalizeResponse_wraps_object sample_codes sample_now
           {["error" := VString "boom"]}).
  reflexivity.
Defined.

(** X15. A decorated method never hands out a malformed response when it
    throws or returns an object with a [code] property: what it
    resolves with is a base response, and after a throw it is the
    internal-error response that carries the message of the [Error]
    ("Unknown error" for any other thrown value).  Any other returned
    value is passed on untouched. *)
Theorem standardizeResponse_valid codes now method :
  match method with
  | throws e =>
      standardizeResponse codes now method
      = ResponseFactory.internalError codes now (errorMessage_of e)
      ∧ ResponseValidator.validateBaseResponse (standardizeResponse codes now method) = true
  | returns result =>
      if has_prop "code" result
      then ResponseValidator.validateBaseResponse (standardizeResponse codes now method) = true
      else standardizeResponse codes now method = result
  end.
Proof.
  destruct method as [result|e]; [|done].
  unfold standardizeResponse.
  destruct (has_prop "code" result) eqn:Hcode.
  - destruct result; try done. cbn.
    apply (normalizeResponse_valid_idempotent codes now now).
  - by rewrite andb_false_r.
Qed.

(** * Properties of the HTTP handlers *)

Lemma replies_app out1 out2 : replies (out1 ++ out2) = replies out1 ++ replies out2.
Proof. unfold replies. apply omap_app. Qed.

Lemma replies_orchestrator out : replies (orchestrator <$> out) = [].
Proof. unfold replies. by induction out as [|e out IH]. Qed.



(** X17. A request that the endpoint rejects never reaches the
    orchestrator: nothing is logged, sent or delegated by it.  And since
    the endpoint checks the outcome first, the orchestrator it calls
    never ends with the "Invalid outcome value" exception; with the
    scheduler resolving, a 500 reply carries one of the orchestrator's
    three other messages. *)
Theorem confirmation_endpoint_guards_orchestrator codes validOutcomes now
    factoryInitialized abortSignal delegated callId outcome this :
  (missing callId || missing outcome
   || negb (bool_decide (default "" outcome ∈ validOutcomes))
   || negb factoryInitialized = true →
   Forall (λ e, ∀ e', e ≠ orchestrator e')
     (GeminiService.handleToolConfirmation codes validOutcomes now
        factoryInitialized abortSignal delegated callId outcome this).2)
  ∧ (missing callId || missing outcome
     || negb (bool_decide (default "" outcome ∈ validOutcomes))
     || negb factoryInitialized = false →
     (∀ o valid,
        outcome_of (handleToolConfirmation validOutcomes
                      (default "" callId) (default "" outcome)
                      abortSignal this)
        ≠ inl (InvalidOutcome o valid))
     ∧ ∀ body,
         delegated = returns () →
         replies (GeminiService.handleToolConfirmation codes validOutcomes
                    now factoryInitialized abortSignal delegated callId
                    outcome this).2
         = [(500%Z, body)] →
         body = ResponseFactory.internalError codes now (message SchedulerNotInitialized)
         ∨ body = ResponseFactory.internalError codes now (message NotFoundOrNotAwaiting)
         ∨ body = ResponseFactory.internalError codes now
                    (message TypeError_confirmationDetails)).
Proof.
  unfold GeminiService.handleToolConfirmation.
  destruct (missing callId); [split; [by repeat constructor | done]|].
  destruct (missing outcome); [split; [by repeat constructor | done]|].
  case_bool_decide as Hvalid; [|split; [by repeat constructor | done]].
  destruct factoryInitialized; [|split; [by repeat constructor | done]].
  split; [done|]. intros _. cbn [fst snd].
  split.
  - intros o valid. rewrite handleToolConfirmation_run.
    rewrite (bool_decide_eq_true_2 _ Hvalid). unfold outcome_of.
    repeat (case_match; try done).
  - intros body ->. cbn [orb negb snd].
    change (?x :: ?l ++ ?l') with ([x] ++ l ++ l').
    rewrite !replies_app, replies_orchestrator. cbn [app].
    rewrite handleToolConfirmation_run.
    rewrite (bool_decide_eq_true_2 _ Hvalid). unfold outcome_of.
    repeat (case_match; try done); cbn; intros [= <-];
      cbn in *; simplify_eq; cbn; auto.
Qed.

Lemma confirmation_endpoint_guards_orchestrator_witness :
  Forall (λ e, ∀ e', e ≠ orchestrator e')
    (GeminiService.handleToolConfirmation sample_codes sample_outcomes
       sample_now true 3 (returns ()) (Some "b") (Some "bogus")
       sample_orchestrator).2.
Proof.
  apply (proj1 (confirmation_endpoint_guards_orchestrator sample_codes
                  sample_outcomes sample_now true 3 (returns ()) (Some "b")
                  (Some "bogus") sample_orchestrator)).
  reflexivity.
Defined.

(** X18. The cancel endpoint cancels the tools only if cancelling the
    chat did not throw.  When [cancelCurrentChat] returns, the
    orchestrator is left as [cancelAllOperations] leaves it: no live
    call waits for approval or executes, no response is current, and the
    reply is 200 with a success body.  When it throws, the orchestrator
    is not touched at all: its live calls, its current response and its
    de-duplication set stay as they were, and the reply is 500.  Either
    way there is exactly one reply. *)
Theorem cancel_endpoint codes now chatCancelled this :
  match chatCancelled with
  | returns _ =>
      (GeminiService.handleCancelChat codes now chatCancelled this).1
      = state_of (cancelAllOperations this)
      ∧ currentResponse
          (GeminiService.handleCancelChat codes now chatCancelled this).1
        = None
      ∧ (∀ sch tc,
           toolScheduler
             (GeminiService.handleCancelChat codes now chatCancelled this).1
           = Some sch →
           tc ∈ toolCalls sch →
           status tc ≠ awaiting_approval ∧ status tc ≠ executing)
      ∧ ∃ body,
          replies (GeminiService.handleCancelChat codes now chatCancelled
                     this).2 = [(200%Z, body)]
          ∧ ResponseValidator.validateSuccessResponse body = true
  | throws e =>
      (GeminiService.handleCancelChat codes now chatCancelled this).1 = this
      ∧ Forall (λ e, ∀ e', e ≠ orchestrator e')
          (GeminiService.handleCancelChat codes now chatCancelled this).2
      ∧ replies (GeminiService.handleCancelChat codes now chatCancelled
                   this).2
        = [(500%Z, ResponseFactory.internalError codes now (errorMessage_of e))]
  end.
Proof.
  destruct chatCancelled as [[]|e]; cbn [GeminiService.handleCancelChat fst snd].
  - split; [done|]. rewrite cancelAllOperations_run.
    unfold state_of, effects_of. cbn [fst snd currentResponse toolScheduler].
    split; [done|]. split.
    + intros sch tc Hsch Hin.
      destruct (toolScheduler this) as [sch0|]; [|done].
      cbn in Hsch. injection Hsch as <-. cbn in Hin.
      rewrite cancel_live_calls in Hin.
      apply list_elem_of_fmap in Hin as (tc0 & -> & _).
      destruct (cancel_call_fields tc0) as (_ & _ & _ & _ & Hst).
      rewrite Hst. by destruct (status tc0).
    + rewrite !replies_app, replies_orchestrator. by eexists.
  - split; [done|]. split; [by repeat constructor | done].
Qed.

Lemma cancel_endpoint_witness :
  ∃ sch,
    toolScheduler
      (GeminiService.handleCancelChat sample_codes sample_now (returns ())
         sample_orchestrator).1 = Some sch
    ∧ Forall (λ tc, status tc ≠ awaiting_approval ∧ status tc ≠ executing)
        (toolCalls sch).
Proof.
  exists {| toolCalls := (cancel_live sample_batch).1 |}.
  split; [reflexivity|].
  apply Forall_forall. intros tc Hin.
  apply (proj1 (proj2 (proj2
           (cancel_endpoint sample_codes sample_now (returns ())
              sample_orchestrator)))
           {| toolCalls := (cancel_live sample_batch).1 |} tc);
    [reflexivity | exact Hin].
Defined.

(** X19. [checkModelAvailability] puts "flash" first: a model whose name
    contains "flash" is reported available without asking anything,
    even if the name also contains "pro".  The two fields agree: status
    "available" comes with [available = true] and "unavailable" with
    [available = false].  A model is reported not available only when
    its name contains "pro" and not "flash" and either a lookup failed
    or, with an API key, the effective model is another one; without an
    API key a "pro" model is reported available with status
    "unknown". *)
Theorem checkModelAvailability_cases model config effective :
  (includes "flash" model = true →
   GeminiService.checkModelAvailability model config effective
   = {| available := true;
        availability_status := "available";
        availability_message := "Flash model is always available" |})
  ∧ (availability_status
       (GeminiService.checkModelAvailability model config effective)
     = "available" →
     available (GeminiService.checkModelAvailability model config effective)
     = true)
  ∧ (availability_status
       (GeminiService.checkModelAvailability model config effective)
     = "unavailable" →
     available (GeminiService.checkModelAvailability model config effective)
     = false)
  ∧ (available (GeminiService.checkModelAvailability model config effective)
     = false ↔
     includes "flash" model = false ∧ includes "pro" model = true
     ∧ (config = config_rejects
        ∨ ∃ apiKey, config = config_resolves (Some apiKey) ∧ apiKey ≠ ""
            ∧ (effective = effective_rejects
               ∨ ∃ m, effective = effective_resolves m ∧ m ≠ model))).
Proof.
  unfold GeminiService.checkModelAvailability.
  destruct (includes "flash" model), (includes "pro" model),
    config as [[apiKey|]|], effective as [m|];
    cbn [missing negb]; repeat case_bool_decide; cbn;
    (split; [done|]; split; [done|]; split; [done|]);
    (split; [try done; intros _ | naive_solver]);
    repeat (split; [done|]); eauto 10.
Qed.

Lemma checkModelAvailability_cases_witness :
  GeminiService.checkModelAvailability "gemini-2.5-pro-flash-preview"
    config_rejects effective_rejects
  = {| available := true;
       availability_status := "available";
       availability_message := "Flash model is always available" |}.
Proof.
  apply (proj1 (checkModelAvailability_cases "gemini-2.5-pro-flash-preview"
                  config_rejects effective_rejects)).
  reflexivity.
Defined.

(** X20. [readFile] and [writeFile] always build a success response
    with code 200, also for a failed operation: the failure is only the
    [success] flag inside [data].  The optional [message] is a property
    of [data] exactly when it was given and is not empty. *)
Theorem file_responses_report_inside_data now path content text ok message :
  ResponseValidator.validateSuccessResponse
    (ResponseFactory.readFile now path content ok message) = true
  ∧ prop "success" (prop "data" (ResponseFactory.readFile now path content ok
                                  message)) = VBool ok
  ∧ has_prop "message"
      (prop "data" (ResponseFactory.readFile now path content ok message))
    = negb (missing message)
  ∧ ResponseValidator.validateSuccessResponse
      (ResponseFactory.writeFile now path text ok message) = true
  ∧ prop "success" (prop "data" (ResponseFactory.writeFile now path text ok
                                  message)) = VBool ok
  ∧ has_prop "message"
      (prop "data" (ResponseFactory.writeFile now path text ok message))
    = negb (missing message).
Proof.
  unfold ResponseFactory.readFile, ResponseFactory.writeFile, spread_if_truthy.
  destruct message as [m|]; cbn [from_option truthy missing];
    repeat case_bool_decide; cbn [negb];
    repeat split; try done;
    cbn; by simplify_map_eq.
Qed.

Lemma handleModelSwitch_replies codes now SUPPORTED_MODELS factoryInitialized
    currentModel setModel_ends setCurrentModel_ends config effective model :
  ∃ status body,
    replies (GeminiService.handleModelSwitch codes now SUPPORTED_MODELS
               factoryInitialized currentModel setModel_ends
               setCurrentModel_ends config effective model)
    = [(status, body)]
    ∧ ResponseValidator.validateBaseResponse body = true.
Proof.
  unfold GeminiService.handleModelSwitch.
  repeat (case_match; try by eexists _, _).
Qed.

(** X21. The model-switch endpoint answers every request exactly once
    with a base response, and it never switches to a model it does not
    support: [config.setModel] is called at most with the requested
    model, and only when that model is in [SUPPORTED_MODELS] and differs
    from the current one; the client manager is told only after
    [config.setModel] returned.  A request for the model already in use
    is answered 200 without any change, whether or not that model is
    supported. *)
Theorem model_switch_only_to_supported codes now SUPPORTED_MODELS
    factoryInitialized currentModel setModel_ends setCurrentModel_ends config
    effective model :
  (∃ status body,
     replies (GeminiService.handleModelSwitch codes now SUPPORTED_MODELS
                factoryInitialized currentModel setModel_ends
                setCurrentModel_ends config effective model)
     = [(status, body)]
     ∧ ResponseValidator.validateBaseResponse body = true)
  ∧ (∀ m,
       config_setModel m
       ∈ GeminiService.handleModelSwitch codes now SUPPORTED_MODELS
           factoryInitialized currentModel setModel_ends setCurrentModel_ends
           config effective model →
       model = Some m ∧ m ∈ SUPPORTED_MODELS ∧ currentModel ≠ Some m
       ∧ factoryInitialized = true)
  ∧ (∀ m,
       clientManager_setCurrentModel m
       ∈ GeminiService.handleModelSwitch codes now SUPPORTED_MODELS
           factoryInitialized currentModel setModel_ends setCurrentModel_ends
           config effective model →
       config_setModel m
       ∈ GeminiService.handleModelSwitch codes now SUPPORTED_MODELS
           factoryInitialized currentModel setModel_ends setCurrentModel_ends
           config effective model
       ∧ setModel_ends = returns ())
  ∧ (∀ m,
       model = Some m → m ≠ "" → factoryInitialized = true →
       currentModel = Some m →
       ∃ body,
         GeminiService.handleModelSwitch codes now SUPPORTED_MODELS
           factoryInitialized currentModel setModel_ends setCurrentModel_ends
           config effective model
         = [service_log "Processing model switch request"
              [("targetModel", model)];
            reply 200 body]
         ∧ prop "switched" (prop "model" (prop "data" body)) = VBool false).
Proof.
  split; [apply handleModelSwitch_replies|].
  unfold GeminiService.handleModelSwitch.
  split; [|split].
  - intros m Hin.
    destruct model as [target|]; cbn [missing default] in Hin;
      [|by repeat (apply elem_of_cons in Hin as [?|Hin]; [done|]);
           apply elem_of_nil in Hin].
    repeat case_bool_decide; cbn [negb] in Hin;
      destruct factoryInitialized; cbn [negb] in Hin;
      try destruct currentModel as [current|];
      repeat case_bool_decide; cbn [negb] in Hin;
      try destruct setModel_ends as [[]|?];
      try destruct setCurrentModel_ends as [[]|?];
      set_unfold; naive_solver.
  - intros m Hin.
    destruct model as [target|]; cbn [missing default] in Hin |- *;
      [|by repeat (apply elem_of_cons in Hin as [?|Hin]; [done|]);
           apply elem_of_nil in Hin].
    repeat case_bool_decide; cbn [negb] in Hin |- *;
      destruct factoryInitialized; cbn [negb] in Hin |- *;
      try destruct currentModel as [current|];
      repeat case_bool_decide; cbn [negb] in Hin |- *;
      try destruct setModel_ends as [[]|?];
      try destruct setCurrentModel_ends as [[]|?];
      set_unfold; naive_solver.
  - intros m -> Hm -> ->. cbn [missing default].
    rewrite (bool_decide_eq_false_2 _ Hm). cbn [negb].
    rewrite bool_decide_eq_true_2 by done. by eexists.
Qed.

Lemma model_switch_only_to_supported_witness :
  ∃ body,
    GeminiService.handleModelSwitch sample_codes sample_now
      ["gemini-2.5-pro"; "gemini-2.5-flash"] true (Some "legacy-model")
      (returns ()) (returns ()) config_rejects effective_rejects
      (Some "legacy-model")
    = [service_log "Processing model switch request"
         [("targetModel", Some "legacy-model")];
       reply 200 body]
    ∧ prop "switched" (prop "model" (prop "data" body)) = VBool false.
Proof.
  apply (proj2 (proj2 (proj2
           (model_switch_only_to_supported sample_codes sample_now
              ["gemini-2.5-pro"; "gemini-2.5-flash"] true (Some "legacy-model")
              (returns ()) (returns ()) config_rejects effective_rejects
              (Some "legacy-model")))) "legacy-model").
  - reflexivity.
  - discriminate.
  - reflexivity.
  - reflexivity.
Defined.
